(** * File_Validation.py: reconciliation of a source and a target table

    A shallow embedding of [src/File_Validation.py] and the properties of
    its comparison pipeline: column-name normalization, schema difference,
    left-anti-join of the rows over the common columns, duplicate detection
    in the target, and the choice of the report that is written.

    Modelling conventions.
    - A Python [str] is the string of the bytes of its UTF-8 encoding.
      [str.lower] follows the Unicode case mappings and is not defined
      here: it is a parameter of the model ([Python]), known to be the
      ASCII case mapping on ASCII text, to be idempotent, to commute with
      the replacement of spaces by underscores and to leave no capital
      ASCII letter.
    - A [DataFrame] is a list of column labels, the dtype of every column
      and a row-major list of rows. Cell values are an abstract type with
      decidable equality: the equality pandas uses in [duplicated] and on
      merge keys of one dtype. The dtypes are an abstract type as well
      ([Dtypes]). What [merge] does with two key columns of different
      dtypes (it raises, or it converts the keys before it compares them)
      is a parameter of the model ([Pandas]), as is the [repr] of an
      [Index].
    - A Python [set] of strings has no fixed iteration order (string hashes
      are salted per process); [list(s)] is modelled by a [SetOrder], an
      arbitrary enumeration of the set's elements.
    - The file system and the logger are explicit state; every call that can
      raise returns in an error monad; what the outside world answers
      ([os.path.isfile], [pd.read_csv], [to_csv]) is a [World] record. *)

From stdpp Require Import gmap strings list sorting pretty.
From Stdlib Require Import Ascii.

Local Open Scope string_scope.
Local Open Scope list_scope.
Local Open Scope nat_scope.

(** ** Column-name normalization (lines 39-40) *)

(** [s.replace(old, new)] for one-character [old] and [new]. *)
Fixpoint replace (old new : ascii) (s : string) : string :=
  match s with
  | EmptyString => EmptyString
  | String c r =>
      String (if Ascii.eqb c old then new else c) (replace old new r)
  end.

(** The case mapping of ASCII: the letters [A]-[Z] (65-90) go to [a]-[z],
    every other byte stays. *)
Definition ascii_lower_char (c : ascii) : ascii :=
  let n := nat_of_ascii c in
  if (65 <=? n)%nat && (n <=? 90)%nat then ascii_of_nat (n + 32) else c.

Fixpoint ascii_lower (s : string) : string :=
  match s with
  | EmptyString => EmptyString
  | String c r => String (ascii_lower_char c) (ascii_lower r)
  end.

(** Text made of ASCII characters only. *)
Definition is_ascii (s : string) : Prop :=
  Forall (λ a, nat_of_ascii a < 128) (String.list_ascii_of_string s).

Global Instance is_ascii_dec (s : string) : Decision (is_ascii s).
Proof. unfold is_ascii. apply _. Defined.

(** A capital ASCII letter. *)
Definition capital (a : ascii) : Prop := 65 ≤ nat_of_ascii a ≤ 90.

(** [s.lower()], and what the development uses of it. On ASCII text it is
    the ASCII case mapping. The three other laws hold of the Unicode
    lower-casing as well: a lower-cased text is left as it is; the space
    and the underscore are neither cased nor ignored where the context of
    a letter is looked at, so the one may stand for the other; no mapping
    yields a capital ASCII letter. *)
Class Python := {
  lower : string → string;
  lower_ascii_text : ∀ s, is_ascii s → lower s = ascii_lower s;
  lower_lower : ∀ s, lower (lower s) = lower s;
  lower_replace : ∀ s, lower (replace " " "_" s) = replace " " "_" (lower s);
  lower_no_capital :
    ∀ s a, a ∈ String.list_ascii_of_string (lower s) → ¬ capital a
}.

(** [c.lower().replace(" ", "_")] *)
Definition normalize `{Python} (c : string) : string := replace " " "_" (lower c).

(** [[c.lower().replace(" ", "_") for c in cols]] *)
Definition normalize_columns `{Python} (cols : list string) : list string :=
  map normalize cols.

(** ** Sets of labels and their iteration order (lines 43-48) *)

(** [list(s)] for a Python set [s]: some enumeration of its elements. *)
Record SetOrder := {
  enum : gset string → list string;
  enum_perm : ∀ s, enum s ≡ₚ elements s
}.

Record SchemaDiff := {
  common_columns : list string;
  missing_in_target : list string;
  missing_in_source : list string
}.

(** Lines 43-48, on the normalized column lists. *)
Definition diff_schema (o : SetOrder) (source_columns target_columns : list string)
  : SchemaDiff :=
  let source_cols : gset string := list_to_set source_columns in
  let target_cols : gset string := list_to_set target_columns in
  {| common_columns := enum o (source_cols ∩ target_cols);
     missing_in_target := enum o (source_cols ∖ target_cols);
     missing_in_source := enum o (target_cols ∖ source_cols) |}.

(** Line 54. *)
Definition schema_mismatch (d : SchemaDiff) : list string :=
  missing_in_target d ++ missing_in_source d.

(** Two enumerations used in the examples: the one of [elements], and its
    reverse. *)
Program Definition order_fwd : SetOrder := {| enum := elements |}.
Next Obligation. done. Qed.

Program Definition order_rev : SetOrder := {| enum := λ s, reverse (elements s) |}.
Next Obligation. intros s. apply reverse_Permutation. Qed.

(** ** Exceptions *)

Inductive exn_class :=
  | FileNotFoundError
  | KeyError
  | MergeError
  | ValueError
  | OtherError.  (* any other class raised by the I/O layer *)

Record exn := Raise { exn_cls : exn_class; exn_msg : string }.

Inductive result (A : Type) :=
  | Ok (a : A)
  | Raised (e : exn).
Arguments Ok {A} a.
Arguments Raised {A} e.

Global Instance exn_class_eq_dec : EqDecision exn_class.
Proof. solve_decision. Defined.

(** The exceptions [pd.merge] raises on column labels. The call of line 65
    passes neither [on=] nor an index option. *)
Definition no_common_columns : exn :=
  Raise MergeError
    ("No common columns to perform merge on. "
     +:+ "Merge options: left_on=None, right_on=None, "
     +:+ "left_index=False, right_index=False").

Definition reserved_indicator_name : exn :=
  Raise ValueError "Cannot use name of an existing column for indicator column".

Definition indicator_option_unusable (name : string) : exn :=
  Raise ValueError
    ("Cannot use `indicator=True` option when data contains a column named "
     +:+ name).

(** ** Data frames *)

(** The dtypes of the columns that hold cells of the type [cell]. *)
Class Dtypes (cell : Type) := {
  dtype : Type;
  dtype_eq_dec :: EqDecision dtype
}.

(** The labels of [l], each once, at its first place ([Index.unique]). *)
Fixpoint unique (l : list string) : list string :=
  match l with
  | [] => []
  | x :: l' => x :: filter (λ y, y ≠ x) (unique l')
  end.

Section Frames.
Context {cell : Type} `{EqDecision cell} `{!Dtypes cell}.

Record DataFrame := {
  columns : list string;
  dtypes : list dtype;      (* one per column *)
  rows : list (list cell)
}.

(** Every row has one cell per column. *)
Definition rectangular (df : DataFrame) : Prop :=
  Forall (λ r, length r = length (columns df)) (rows df).

Global Instance rectangular_dec (df : DataFrame) : Decision (rectangular df).
Proof. unfold rectangular. apply _. Defined.

(** [df.columns = new_columns] *)
Definition set_columns (df : DataFrame) (new_columns : list string) : DataFrame :=
  {| columns := new_columns; dtypes := dtypes df; rows := rows df |}.

(** The entries of [r] that stand under a column labelled [c]. *)
Definition under {A} (c : string) (cols : list string) (r : list A) : list A :=
  (filter (λ p, p.1 = c) (zip cols r)).*2.

(** The entries of [r] under the labels [labels], label by label. *)
Definition project {A} (labels cols : list string) (r : list A) : list A :=
  labels ≫= (λ c, under c cols r).

(** [df[labels]]: a [KeyError] for a label that is no column; a label that
    several columns carry selects all of them. *)
Definition getitem (df : DataFrame) (labels : list string) : result DataFrame :=
  if bool_decide (Forall (λ c, c ∈ columns df) labels) then
    Ok {| columns := project labels (columns df) (columns df);
          dtypes := project labels (columns df) (dtypes df);
          rows := map (project labels (columns df)) (rows df) |}
  else Raised (Raise KeyError "not in index").

(** *** [pd.merge(left, right, how='left', indicator=True)] *)

Inductive indicator := left_only | right_only | both.

Global Instance indicator_eq_dec : EqDecision indicator.
Proof. solve_decision. Defined.

Record Merged := {
  m_columns : list string;
  m_dtypes : list dtype;
  m_rows : list (list cell * indicator)
}.

(** What the model takes from pandas without defining it: the [repr] of an
    [Index] of labels, and what [merge] does with its operands when two key
    columns that are to be compared are of different dtypes
    ([_maybe_coerce_merge_keys], and the conversion to a common dtype that
    follows it): it raises [ValueError], or it goes on with the left
    operand, some of its key columns converted, and with a comparison of
    the key of a left row with the key of a right row. *)
Class Pandas := {
  index_repr : list string → string;
  coerce_merge_keys :
    list string → DataFrame → DataFrame →
    result (DataFrame * (list cell → list cell → bool))
}.

Context `{!Pandas}.

Definition columns_not_unique (common_cols : list string) : exn :=
  Raise MergeError ("Data columns not unique: " +:+ index_repr common_cols).

(** The names [merge] reserves when [indicator=True]. *)
Definition indicator_names : list string :=
  ["_left_indicator"; "_right_indicator"; "_merge"].

(** The check [merge] makes on the labels of its two operands before it adds
    the indicator column. *)
Definition indicator_pre_merge (cols : list string) : option exn :=
  match filter (λ i, i ∈ cols) ["_left_indicator"; "_right_indicator"] with
  | i :: _ => Some (indicator_option_unusable i)
  | [] =>
      if bool_decide ("_merge" ∈ cols) then Some reserved_indicator_name
      else None
  end.

(** The dtypes of the columns labelled [keys]. *)
Definition key_dtypes (keys : list string) (df : DataFrame) : list dtype :=
  project keys (columns df) (dtypes df).

(** Two key columns are compared as they are when they are of one dtype.
    The dtypes are not looked at when exactly one operand has no rows. *)
Definition no_coercion (keys : list string) (left_df right_df : DataFrame) : Prop :=
  (rows left_df = [] ∧ rows right_df ≠ [])
  ∨ (rows left_df ≠ [] ∧ rows right_df = [])
  ∨ key_dtypes keys left_df = key_dtypes keys right_df.

Global Instance no_coercion_dec keys left_df right_df :
  Decision (no_coercion keys left_df right_df).
Proof. unfold no_coercion. apply _. Defined.

Definition maybe_coerce_merge_keys (keys : list string) (left_df right_df : DataFrame)
  : result (DataFrame * (list cell → list cell → bool)) :=
  if bool_decide (no_coercion keys left_df right_df)
  then Ok (left_df, λ k k', bool_decide (k = k'))
  else coerce_merge_keys keys left_df right_df.

(** With no [on=], [merge] joins on the labels the two operands share
    ([left.columns.intersection(right.columns)]). It raises [MergeError]
    when there is none, and when one of them is carried by more than one
    column of an operand. Then it looks at the dtypes of the key columns,
    pair by pair. With [indicator=True] it raises [ValueError] when an
    operand has a column with one of the reserved names. How [left]: every
    left row, in left order, once per right row with the same key (tagged
    [both]), or once tagged [left_only] when there is none.

    Both operands of the call at line 65 are selections by one list of
    labels, so every column of either is a join key; the columns an operand
    has besides the keys (none here) are not modelled. *)
Definition merge_left_indicator (left_df right_df : DataFrame) : result Merged :=
  let common_cols :=
    filter (λ c, c ∈ columns right_df) (unique (columns left_df)) in
  if bool_decide (common_cols = []) then
    Raised no_common_columns
  else if bool_decide (NoDup (filter (λ c, c ∈ common_cols) (columns left_df))
                       ∧ NoDup (filter (λ c, c ∈ common_cols) (columns right_df)))
  then
    match maybe_coerce_merge_keys common_cols left_df right_df with
    | Raised e => Raised e
    | Ok (left_c, same_key) =>
        match indicator_pre_merge (columns left_df ++ columns right_df) with
        | Some e => Raised e
        | None =>
            let key_l := project common_cols (columns left_df) in
            let key_r := project common_cols (columns right_df) in
            Ok {| m_columns := columns left_c;
                  m_dtypes := dtypes left_c;
                  m_rows :=
                    rows left_c ≫= (λ l,
                      match filter (λ r, same_key (key_l l) (key_r r) = true)
                                   (rows right_df) with
                      | [] => [(l, left_only)]
                      | matches => map (λ _, (l, both)) matches
                      end) |}
        end
    end
  else Raised (columns_not_unique common_cols).

(** [.query('_merge == "left_only"').drop(columns=['_merge'])] *)
Definition query_left_only_drop (m : Merged) : DataFrame :=
  {| columns := m_columns m;
     dtypes := m_dtypes m;
     rows := (filter (λ p, p.2 = left_only) (m_rows m)).*1 |}.

(** Lines 65-66. *)
Definition rows_missing_in_target (source_df target_df : DataFrame)
    (common_columns : list string) : result DataFrame :=
  match getitem source_df common_columns with
  | Raised e => Raised e
  | Ok left_df =>
      match getitem target_df common_columns with
      | Raised e => Raised e
      | Ok right_df =>
          match merge_left_indicator left_df right_df with
          | Raised e => Raised e
          | Ok m => Ok (query_left_only_drop m)
          end
      end
  end.

(** *** [df.duplicated(subset=subset, keep=False)] *)

(** With [keep=False] a row is flagged when another row, before or after
    it, has the same key. *)
Fixpoint flag_duplicates {K} `{EqDecision K} (seen keys : list K) : list bool :=
  match keys with
  | [] => []
  | k :: rest =>
      (bool_decide (k ∈ seen) || bool_decide (k ∈ rest))
        :: flag_duplicates (k :: seen) rest
  end.

(** The key of a row: its values in the columns whose label is in [subset],
    in the frame's column order. An empty frame (no row or no column) gives
    the empty series; a label of [subset] that is no column is a [KeyError]. *)
Definition duplicated (df : DataFrame) (subset : list string) : result (list bool) :=
  if bool_decide (rows df = [] ∨ columns df = []) then Ok []
  else if bool_decide (Forall (λ c, c ∈ columns df) subset) then
    let key r := (filter (λ p, p.1 ∈ subset) (zip (columns df) r)).*2 in
    Ok (flag_duplicates [] (map key (rows df)))
  else Raised (Raise KeyError "not in index").

(** [.sum()] of a boolean series. *)
Definition sum_bool (flags : list bool) : nat := length (filter (λ b, b = true) flags).

(** Line 70. *)
Definition duplicate_count (target_df : DataFrame) (common_columns : list string)
  : result nat :=
  match duplicated target_df common_columns with
  | Raised e => Raised e
  | Ok flags => Ok (sum_bool flags)
  end.

End Frames.

Arguments DataFrame cell {_}.
Arguments Merged cell {_}.
Arguments Pandas cell {_}.
(** ** Configuration, file system and logger (lines 5-19) *)

Inductive path :=
  | source_path
  | target_path
  | discrepancy_report
  | no_discrepancy_report
  | mismatch_records.

Global Instance path_eq_dec : EqDecision path.
Proof. solve_decision. Defined.

Definition config (p : path) : string :=
  match p with
  | source_path => "/Users/jobazariahraj/Downloads/Entity_DataSet.csv"
  | target_path => "/Users/jobazariahraj/Downloads/Target_File.csv"
  | discrepancy_report => "/Users/jobazariahraj/Downloads/discrepancy_report.csv"
  | no_discrepancy_report => "/Users/jobazariahraj/Downloads/no_discrepancy_report.csv"
  | mismatch_records => "/Users/jobazariahraj/Downloads/mismatch_records.csv"
  end.

Inductive level := INFO | WARNING | ERROR.

Global Instance level_eq_dec : EqDecision level.
Proof. solve_decision. Defined.

(** A log message: a text, or an f-string that ends in the [repr] of a list
    of labels or in the [str] of an exception. *)
Inductive message :=
  | Text (s : string)
  | TextList (s : string) (l : list string)
  | TextExn (s : string) (e : exn).

Record log_record := { lvl : level; msg : message }.

(** [sep.join(l)] *)
Fixpoint join (sep : string) (l : list string) : string :=
  match l with
  | [] => ""
  | [x] => x
  | x :: r => x +:+ sep +:+ join sep r
  end.

Section Script.
Context `{!Python} {cell : Type} `{EqDecision cell} `{!Dtypes cell} `{!Pandas cell}.

(** What [to_csv] is handed: a data table, or (for the two reports) a table
    of texts built from a list of dicts. *)
Inductive content :=
  | Table (df : DataFrame cell)
  | Records (header : list string) (body : list (list string)).

(** The answers of the outside world. *)
Record World := {
  isfile : path → bool;                      (* os.path.isfile *)
  read_csv : path → result (DataFrame cell); (* pd.read_csv *)
  to_csv : path → content → option exn       (* df.to_csv: [None] when it returns *)
}.

Record State := {
  files : list (path * content);  (* files written, oldest first *)
  log : list log_record           (* records logged, oldest first *)
}.

Definition initial : State := {| files := []; log := [] |}.

(** State and exceptions. *)
Definition M (A : Type) : Type := State → State * result A.

Global Instance M_ret : MRet M := λ A a st, (st, Ok a).
Global Instance M_bind : MBind M := λ A B f m st,
  match m st with
  | (st', Ok a) => f a st'
  | (st', Raised e) => (st', Raised e)
  end.

Definition raise {A} (e : exn) : M A := λ st, (st, Raised e).

Definition lift {A} (r : result A) : M A := λ st, (st, r).

Definition logger (l : level) (m : message) : M unit := λ st,
  ({| files := files st; log := log st ++ [{| lvl := l; msg := m |}] |}, Ok ()).

Definition df_to_csv (w : World) (p : path) (c : content) : M unit := λ st,
  match to_csv w p c with
  | None => ({| files := files st ++ [(p, c)]; log := log st |}, Ok ())
  | Some e => (st, Raised e)
  end.

(** *** Loading (lines 22-36) *)

Definition load (w : World) : M (DataFrame cell * DataFrame cell) :=
  (if negb (isfile w source_path)
   then raise (Raise FileNotFoundError
                 ("Source file not found at " +:+ config source_path))
   else mret ());;
  source_df ← lift (read_csv w source_path);
  logger INFO (Text "✅ Source file loaded successfully.");;
  (if negb (isfile w target_path)
   then df_to_csv w target_path (Table source_df);;
        logger INFO (Text "✅ File successfully written to target.")
   else mret ());;
  target_df ← lift (read_csv w target_path);
  logger INFO (Text "✅ Target file loaded successfully. Validation process started...");;
  mret (source_df, target_df).

(** *** Comparison (lines 38-71) *)

Record Comparison := {
  schema_diff : SchemaDiff;
  source_row_count : nat;
  target_row_count : nat;
  source_column_count : nat;      (* len(source_df.columns) *)
  target_column_count : nat;      (* len(target_df.columns) *)
  missing_rows : DataFrame cell;  (* rows_missing_in_target *)
  duplicates : nat                (* duplicate_count *)
}.

Definition row_count_mismatch (c : Comparison) : bool :=
  bool_decide (source_row_count c ≠ target_row_count c).

Definition column_count_mismatch (c : Comparison) : bool :=
  bool_decide (source_column_count c ≠ target_column_count c).

Definition missing_count (c : Comparison) : nat := length (rows (missing_rows c)).

Definition has_duplicates (c : Comparison) : bool := bool_decide (0 < duplicates c).

(** Truth value of a list. *)
Definition truthy {A} (l : list A) : bool :=
  match l with [] => false | _ => true end.

(** Lines 39-71 without the logging: every value the report is built from. *)
Definition reconcile (o : SetOrder) (source_df target_df : DataFrame cell)
  : result Comparison :=
  let source_df := set_columns source_df (normalize_columns (columns source_df)) in
  let target_df := set_columns target_df (normalize_columns (columns target_df)) in
  let d := diff_schema o (columns source_df) (columns target_df) in
  match rows_missing_in_target source_df target_df (common_columns d) with
  | Raised e => Raised e
  | Ok missing =>
      match duplicate_count target_df (common_columns d) with
      | Raised e => Raised e
      | Ok n =>
          Ok {| schema_diff := d;
                source_row_count := length (rows source_df);
                target_row_count := length (rows target_df);
                source_column_count := length (columns source_df);
                target_column_count := length (columns target_df);
                missing_rows := missing;
                duplicates := n |}
      end
  end.

(** Lines 39-71: the warnings of lines 50-52 are logged before the merge is
    attempted. *)
Definition compare (o : SetOrder) (source_df target_df : DataFrame cell)
  : M Comparison :=
  let d := diff_schema o (normalize_columns (columns source_df))
                         (normalize_columns (columns target_df)) in
  (if truthy (missing_in_target d) || truthy (missing_in_source d)
   then logger WARNING (TextList "Columns missing in target: " (missing_in_target d));;
        logger WARNING (TextList "Columns missing in source: " (missing_in_source d))
   else mret ());;
  lift (reconcile o source_df target_df).

(** *** Reports (lines 73-97) *)

(** The condition of line 79. *)
Definition discrepancy_found (c : Comparison) : bool :=
  truthy (schema_mismatch (schema_diff c))
  || row_count_mismatch c
  || column_count_mismatch c
  || bool_decide (0 < missing_count c)
  || has_duplicates c.

(** Lines 82-88: one [Validation, Discrepancy] record per check. *)
Definition discrepancy_data (c : Comparison) : list (list string) :=
  [ ["Schema Mismatch";
     if truthy (schema_mismatch (schema_diff c))
     then join ", " (schema_mismatch (schema_diff c)) else "No Issue"];
    ["Row Count Mismatch";
     if row_count_mismatch c
     then "Source: " +:+ pretty (source_row_count c)
          +:+ ", Target: " +:+ pretty (target_row_count c)
     else "No Issue"];
    ["Column Count Mismatch";
     if column_count_mismatch c
     then "Source: " +:+ pretty (source_column_count c)
          +:+ ", Target: " +:+ pretty (target_column_count c)
     else "No Issue"];
    ["Source Minus Target";
     if bool_decide (0 < missing_count c)
     then "Rows missing in Target: " +:+ pretty (missing_count c)
     else "No Issue"];
    ["Duplicate Rows in Target";
     if has_duplicates c
     then "Duplicate count: " +:+ pretty (duplicates c)
     else "No Issue"] ].

Definition discrepancy_df (c : Comparison) : content :=
  Records ["Validation"; "Discrepancy"] (discrepancy_data c).

Definition no_discrepancy_df : content :=
  Records ["Validation"; "Message"]
    [["No Discrepancy"; "No discrepancies found. Data is consistent."]].

Definition emit (w : World) (c : Comparison) : M unit :=
  (if bool_decide (0 < missing_count c)
   then df_to_csv w mismatch_records (Table (missing_rows c));;
        logger INFO (Text ("🚨 Mismatched records saved at: " +:+ config mismatch_records))
   else mret ());;
  if discrepancy_found c then
    logger WARNING (Text "⚠️ Discrepancies found. Generating report...");;
    df_to_csv w discrepancy_report (discrepancy_df c);;
    logger INFO (Text ("🚨 Discrepancy report saved at: " +:+ config discrepancy_report))
  else
    logger INFO (Text "✅ No discrepancies found. Data is consistent.");;
    df_to_csv w no_discrepancy_report no_discrepancy_df;;
    logger INFO (Text ("✅ No discrepancy report saved at: " +:+ config no_discrepancy_report)).

(** *** The whole run (lines 21-102) *)

(** Loading and comparison: everything before the first report is written. *)
Definition load_and_compare (w : World) (o : SetOrder) : M Comparison :=
  '(source_df, target_df) ← load w;
  compare o source_df target_df.

Definition try_block (w : World) (o : SetOrder) : M unit :=
  c ← load_and_compare w o;
  emit w c.

(** The two [except] clauses. *)
Definition handler (e : exn) : M unit :=
  if bool_decide (exn_cls e = FileNotFoundError)
  then logger ERROR (TextExn "File Not Found: " e)
  else logger ERROR (TextExn "Unexpected error: " e).

Definition main (w : World) (o : SetOrder) : State :=
  match try_block w o initial with
  | (st, Ok _) => st
  | (st, Raised e) => (handler e st).1
  end.

(** The run completed without an exception. *)
Definition succeeds (w : World) (o : SetOrder) : Prop :=
  ∃ st, try_block w o initial = (st, Ok ()).

(** The file at [p] was written during the run. *)
Definition written (p : path) (st : State) : Prop := p ∈ (files st).*1.

Global Instance written_dec (p : path) (st : State) : Decision (written p st).
Proof. unfold written. apply _. Defined.

Definition errors (st : State) : list log_record :=
  filter (λ r, lvl r = ERROR) (log st).

End Script.

Arguments content cell {_}.
Arguments World cell {_}.
Arguments State cell {_}.
Arguments Comparison cell {_}.


(** ** The operations in the words of the specification *)

(** The two alphabets. *)
Definition capital_letters : list ascii :=
  String.list_ascii_of_string "ABCDEFGHIJKLMNOPQRSTUVWXYZ".

Definition small_letters : list ascii :=
  String.list_ascii_of_string "abcdefghijklmnopqrstuvwxyz".

(** The lowercase form of a character: a capital letter gives the small
    letter at its place of the alphabet, any other character stays. *)
Definition lowercase_spec (a : ascii) : ascii :=
  match list_find (λ b, b = a) capital_letters with
  | Some (i, _) => default a (small_letters !! i)
  | None => a
  end.

(** Spaces replaced by underscores. *)
Definition underscore_spaces (s : string) : string :=
  String.string_of_list_ascii
    (map (λ a, if decide (a = " "%char) then "_"%char else a)
       (String.list_ascii_of_string s)).

(** The lowercase form of an ASCII name with spaces replaced by
    underscores. *)
Definition normalize_spec (s : string) : string :=
  underscore_spaces
    (String.string_of_list_ascii
       (map lowercase_spec (String.list_ascii_of_string s))).

(** How often [k] is listed. *)
Definition occurrences {K} `{EqDecision K} (k : K) (keys : list K) : nat :=
  length (filter (λ k', k' = k) keys).

Section Specification.
Context {cell : Type} `{EqDecision cell} `{!Dtypes cell}.

(** The value tuple of a row of [df] across the columns [common]. *)
Definition value_tuple (common : list string) (df : DataFrame cell)
    (r : list cell) : list cell :=
  project common (columns df) r.

(** findMissingRows: the source rows, projected onto the common columns,
    whose value tuple equals no target row's value tuple; with multiplicity,
    in source order. *)
Definition find_missing_rows_spec (source_df target_df : DataFrame cell)
    (common : list string) : list (list cell) :=
  filter (λ t, t ∉ map (value_tuple common target_df) (rows target_df))
         (map (value_tuple common source_df) (rows source_df)).

(** The same rows before projection. *)
Definition missing_source_rows (source_df target_df : DataFrame cell)
    (common : list string) : list (list cell) :=
  filter (λ r, value_tuple common source_df r
               ∉ map (value_tuple common target_df) (rows target_df))
         (rows source_df).

(** detectDuplicates: the rows of the target whose value tuple occurs more
    than once in the target. *)
Definition duplicate_rows_spec (target_df : DataFrame cell)
    (common : list string) : list (list cell) :=
  let tuples := map (value_tuple common target_df) (rows target_df) in
  filter (λ r, 1 < occurrences (value_tuple common target_df r) tuples)
         (rows target_df).

(** detectDuplicates: group the rows by value tuple and add up the sizes of
    the groups of more than one row. *)
Definition detect_duplicates_spec (target_df : DataFrame cell)
    (common : list string) : nat :=
  let tuples := map (value_tuple common target_df) (rows target_df) in
  sum_list (filter (λ n, 1 < n)
              (map (λ k, occurrences k tuples) (remove_dups tuples))).

(** detectDuplicates: total rows minus rows in singleton groups. *)
Definition total_minus_singletons_spec (target_df : DataFrame cell)
    (common : list string) : nat :=
  let tuples := map (value_tuple common target_df) (rows target_df) in
  length (rows target_df)
  - length (filter (λ k, occurrences k tuples = 1) tuples).



(** Only the target file written, nothing logged at level [ERROR]. *)
Definition quiet (st : State cell) : Prop :=
  Forall (λ f, f.1 = target_path) (files st) ∧ errors st = [].

(** The dtypes of the columns of [df] labelled [x]. *)
Definition column_dtypes (x : string) (df : DataFrame cell) : list dtype :=
  under x (columns df) (dtypes df).

(** The values of the two datasets can be compared as they are: every
    column name they share is of one dtype in both; or exactly one of the
    two has no rows, and there is no pair of values to compare. *)
Definition comparable (source_df target_df : DataFrame cell) : Prop :=
  (rows source_df = [] ∧ rows target_df ≠ [])
  ∨ (rows source_df ≠ [] ∧ rows target_df = [])
  ∨ Forall (λ x, x ∈ columns target_df →
                 column_dtypes x source_df = column_dtypes x target_df)
           (columns source_df).

Global Instance comparable_dec (source_df target_df : DataFrame cell) :
  Decision (comparable source_df target_df).
Proof. unfold comparable. apply _. Defined.

End Specification.

(** ** Labels carried by one column *)

(** Every label of [labels] is the label of exactly one column of [cols]. *)
Definition carried_once (labels cols : list string) : Prop :=
  Forall (λ x, occurrences x cols = 1) labels.

Global Instance carried_once_dec (labels cols : list string) :
  Decision (carried_once labels cols).
Proof. unfold carried_once. apply _. Defined.

(** ** An instance: headers in ASCII, cells that are integers or text *)

(** [str.lower] on headers written in ASCII. *)
Program Definition ascii_python : Python := {| lower := ascii_lower |}.
Next Obligation. done. Qed.
Next Obligation.
  intros s. induction s as [|a s IH]; [done|]. simpl. rewrite IH. clear IH.
  destruct a as [[] [] [] [] [] [] [] []]; reflexivity.
Qed.
Next Obligation.
  intros s. induction s as [|a s IH]; [done|]. simpl. rewrite IH. clear IH.
  destruct a as [[] [] [] [] [] [] [] []]; reflexivity.
Qed.
Next Obligation.
  intros s. induction s as [|b s IH]; intros a Ha; simpl in Ha.
  { by apply elem_of_nil in Ha. }
  apply elem_of_cons in Ha as [->|Ha]; [|by apply IH].
  unfold capital. destruct b as [[] [] [] [] [] [] [] []]; vm_compute; lia.
Qed.

(** The fields of a CSV file that holds integers and text. *)
Inductive value :=
  | Int (z : Z)
  | Str (s : string).

Global Instance value_eq_dec : EqDecision value.
Proof. solve_decision. Defined.

(** The dtypes [pd.read_csv] gives the columns of such a file: [int64],
    [uint64] when a value is beyond the range of [int64], and [object] for
    a column that holds text or has no row. *)
Inductive csv_dtype := int64 | uint64 | object.

Global Instance csv_dtype_eq_dec : EqDecision csv_dtype.
Proof. solve_decision. Defined.

Definition csv_dtypes : Dtypes value :=
  {| dtype := csv_dtype; dtype_eq_dec := csv_dtype_eq_dec |}.

(** [str(dtype)] *)
Definition dtype_name (d : csv_dtype) : string :=
  match d with
  | int64 => "int64"
  | uint64 => "uint64"
  | object => "object"
  end.

(** The integer a [float64] holds for the integer [z]: [z] rounded to 53
    significant bits, ties to even. *)
Definition to_float64 (z : Z) : Z :=
  let n := Z.abs z in
  let e := (Z.log2 n - 52)%Z in
  if (e <=? 0)%Z then z
  else
    let q := Z.shiftr n e in
    let r := Z.land n (Z.ones e) in
    let half := Z.shiftl 1 (e - 1) in
    let q' := if (half <? r)%Z || ((r =? half)%Z && Z.odd q) then (q + 1)%Z else q in
    (Z.sgn z * Z.shiftl q' e)%Z.

(** What [lib.infer_dtype] finds in a column. *)
Inductive inferred :=
  | inferred_empty
  | inferred_integer
  | inferred_string
  | inferred_mixed_integer.

Definition is_Int (v : value) : bool :=
  match v with Int _ => true | Str _ => false end.

Definition is_Str (v : value) : bool :=
  match v with Int _ => false | Str _ => true end.

Definition infer_dtype (d : csv_dtype) (vs : list value) : inferred :=
  match d with
  | int64 | uint64 => inferred_integer
  | object =>
      match vs with
      | [] => inferred_empty
      | _ =>
          if forallb is_Int vs then inferred_integer
          else if forallb is_Str vs then inferred_string
          else inferred_mixed_integer
      end
  end.

(** The two lists of [_maybe_coerce_merge_keys]. *)
Definition in_bool_types (i : inferred) : bool :=
  match i with
  | inferred_integer | inferred_mixed_integer | inferred_empty => true
  | inferred_string => false
  end.

Definition in_string_types (i : inferred) : bool :=
  match i with
  | inferred_string | inferred_empty => true
  | inferred_integer | inferred_mixed_integer => false
  end.

Definition incompatible_keys (dl dr : csv_dtype) (name : string) : exn :=
  Raise ValueError
    ("You are trying to merge on " +:+ dtype_name dl +:+ " and "
     +:+ dtype_name dr +:+ " columns for key '" +:+ name
     +:+ "'. If you wish to proceed you should use pd.concat").

(** One pair of key columns, of dtypes [dl] and [dr] and with the values
    [vl] and [vr]: the exception, or the dtype of the left column
    afterwards and the comparison of a left with a right value. Two
    columns of integers of different dtypes are compared as [float64]; a
    column of text and a column of integers are not compared; in the other
    cases both columns become [object] columns. *)
Definition csv_coerce_key (name : string)
    (dl : csv_dtype) (vl : list value) (dr : csv_dtype) (vr : list value)
  : result (csv_dtype * (value → value → bool)) :=
  if bool_decide (dl = dr) then Ok (dl, λ x y, bool_decide (x = y))
  else
    match dl, dr with
    | object, _ | _, object =>
        let il := infer_dtype dl vl in
        let ir := infer_dtype dr vr in
        if in_bool_types il && in_bool_types ir
        then Ok (object, λ x y, bool_decide (x = y))
        else if (in_string_types il && negb (in_string_types ir))
                || (in_string_types ir && negb (in_string_types il))
        then Raised (incompatible_keys dl dr name)
        else Ok (object, λ x y, bool_decide (x = y))
    | _, _ =>
        Ok (dl, λ x y,
              match x, y with
              | Int a, Int b => bool_decide (to_float64 a = to_float64 b)
              | _, _ => false
              end)
    end.

(** The comparison of two keys, value by value. *)
Fixpoint keys_match (sames : list (value → value → bool)) (k k' : list value)
  : bool :=
  match sames, k, k' with
  | [], [], [] => true
  | same :: sames', x :: k1, y :: k1' => same x y && keys_match sames' k1 k1'
  | _, _, _ => false
  end.

Section CSV.
Existing Instance csv_dtypes.

(** The [repr] of an [Index] of a few labels without quotes or escapes. *)
Definition csv_index_repr (labels : list string) : string :=
  "Index([" +:+ join ", " (map (λ x, "'" +:+ x +:+ "'") labels)
  +:+ "], dtype='object')".

Definition key_dtype (name : string) (df : DataFrame value) : csv_dtype :=
  default object (head (under name (columns df) (dtypes df))).

Definition key_column (name : string) (df : DataFrame value) : list value :=
  rows df ≫= under name (columns df).

(** The pairs of key columns, in the order of the keys: the first pair
    that cannot be compared raises. *)
Fixpoint csv_coerce_keys (keys : list string) (left_df right_df : DataFrame value)
  : result (list (string * csv_dtype) * list (value → value → bool)) :=
  match keys with
  | [] => Ok ([], [])
  | name :: keys' =>
      match csv_coerce_key name
              (key_dtype name left_df) (key_column name left_df)
              (key_dtype name right_df) (key_column name right_df) with
      | Raised e => Raised e
      | Ok (d, same) =>
          match csv_coerce_keys keys' left_df right_df with
          | Raised e => Raised e
          | Ok (ds, sames) => Ok ((name, d) :: ds, same :: sames)
          end
      end
  end.

Definition csv_coerce_merge_keys (keys : list string)
    (left_df right_df : DataFrame value)
  : result (DataFrame value * (list value → list value → bool)) :=
  match csv_coerce_keys keys left_df right_df with
  | Raised e => Raised e
  | Ok (ds, sames) =>
      Ok ({| columns := columns left_df;
             dtypes :=
               map (λ p : string * csv_dtype,
                      match filter (λ q : string * csv_dtype, q.1 = p.1) ds with
                      | q :: _ => q.2
                      | [] => p.2
                      end)
                   (zip (columns left_df) (dtypes left_df));
             rows := rows left_df |},
          keys_match sames)
  end.

Definition csv_pandas : Pandas value :=
  {| index_repr := csv_index_repr;
     coerce_merge_keys := csv_coerce_merge_keys |}.

(** ** Example data *)

Local Open Scope Z_scope.

Definition ex_source : DataFrame value :=
  {| columns := ["ID"; "First Name"];
     dtypes := [int64; int64];
     rows := [[Int 1; Int 10]; [Int 2; Int 20]; [Int 3; Int 30]] |}.

Definition ex_target : DataFrame value :=
  {| columns := ["id"; "first_name"; "extra"];
     dtypes := [int64; int64; int64];
     rows := [[Int 1; Int 10; Int 0]; [Int 2; Int 20; Int 0];
              [Int 3; Int 30; Int 0]; [Int 1; Int 10; Int 5]] |}.

Definition ex_other : DataFrame value :=
  {| columns := ["key"]; dtypes := [int64]; rows := [[Int 1]] |}.

Definition ex_twice : DataFrame value :=
  {| columns := ["ID"; "First Name"];
     dtypes := [int64; int64];
     rows := [[Int 7; Int 70]; [Int 7; Int 70]] |}.

Definition ex_empty : DataFrame value :=
  {| columns := ["id"; "first_name"]; dtypes := [object; object]; rows := [] |}.

Definition ex_dups : DataFrame value :=
  {| columns := ["id"; "first_name"];
     dtypes := [int64; int64];
     rows := [[Int 1; Int 10]; [Int 1; Int 10]; [Int 2; Int 20]] |}.

Definition ex_wide : DataFrame value :=
  {| columns := ["id"; "b"; "a"];
     dtypes := [int64; int64; int64];
     rows := [[Int 1; Int 2; Int 3]] |}.

Definition ex_narrow : DataFrame value :=
  {| columns := ["id"]; dtypes := [int64]; rows := [[Int 1]] |}.

Definition cx_reserved_source : DataFrame value :=
  {| columns := [" merge"]; dtypes := [int64]; rows := [[Int 1]] |}.

Definition cx_reserved_target : DataFrame value :=
  {| columns := ["_Merge"]; dtypes := [int64]; rows := [[Int 2]] |}.

Definition ex_collide : DataFrame value :=
  {| columns := ["ID"; "id"]; dtypes := [int64; int64]; rows := [[Int 1; Int 1]] |}.

(** An [id] of integers against an [id] of text. *)
Definition ex_int_id : DataFrame value :=
  {| columns := ["id"]; dtypes := [int64]; rows := [[Int 1]; [Int 2]] |}.

Definition ex_text_id : DataFrame value :=
  {| columns := ["id"]; dtypes := [object]; rows := [[Str "a"]; [Str "b"]] |}.

(** An [id] beyond the range of [int64] against a signed [id]. *)
Definition ex_unsigned_id : DataFrame value :=
  {| columns := ["id"];
     dtypes := [uint64];
     rows := [[Int 9223372036854775807]; [Int 9223372036854775808]] |}.

Definition ex_signed_id : DataFrame value :=
  {| columns := ["id"];
     dtypes := [int64];
     rows := [[Int 9223372036854775807]; [Int (-1)]] |}.

(** Two common columns, each of integers on one side and of text on the
    other. *)
Definition ex_int_text : DataFrame value :=
  {| columns := ["a"; "b"];
     dtypes := [int64; object];
     rows := [[Int 1; Str "x"]] |}.

Definition ex_text_int : DataFrame value :=
  {| columns := ["a"; "b"];
     dtypes := [object; int64];
     rows := [[Str "y"; Int 2]] |}.

Local Close Scope Z_scope.

End CSV.

(** Both files exist and load as given; every write goes through. *)
Definition ex_world {cell} `{!Dtypes cell} (source_df target_df : DataFrame cell)
  : World cell :=
  {| isfile := λ _, true;
     read_csv := λ p, match p with source_path => Ok source_df | _ => Ok target_df end;
     to_csv := λ _ _, None |}.

(** As [ex_world], but the discrepancy report cannot be written. *)
Definition ex_world_report_fails {cell} `{!Dtypes cell}
    (source_df target_df : DataFrame cell) : World cell :=
  {| isfile := λ _, true;
     read_csv := λ p, match p with source_path => Ok source_df | _ => Ok target_df end;
     to_csv := λ p _,
       match p with
       | discrepancy_report => Some (Raise OtherError "Permission denied")
       | _ => None
       end |}.

(** The source file exists, the target does not; every write goes
    through. *)
Definition ex_world_no_target {cell} `{!Dtypes cell}
    (source_df target_df : DataFrame cell) : World cell :=
  {| isfile := λ p, bool_decide (p = source_path);
     read_csv := λ p, match p with source_path => Ok source_df | _ => Ok target_df end;
     to_csv := λ _ _, None |}.

(** No source file. *)
Definition ex_no_source {cell} `{!Dtypes cell} : World cell :=
  {| isfile := λ _, false;
     read_csv := λ _, Raised (Raise OtherError "unreadable");
     to_csv := λ _ _, None |}.

(** * Properties *)

(** ** Normalization *)

Lemma replace_as_map (s : string) : replace " " "_" s = underscore_spaces s.
Proof.
  unfold underscore_spaces. induction s as [|a s IH]; [reflexivity|].
  simpl. rewrite IH. f_equal.
  destruct (decide (a = " "%char)) as [->|Hne]; [reflexivity|].
  by apply Ascii.eqb_neq in Hne as ->.
Qed.

Lemma replace_replace (s : string) :
  replace " " "_" (replace " " "_" s) = replace " " "_" s.
Proof.
  induction s as [|a s IH]; [reflexivity|]. simpl. rewrite IH. f_equal.
  destruct (Ascii.eqb a " ") eqn:E; [reflexivity|]. by rewrite E.
Qed.

(** What [replace] leaves in a text: no space, and besides the underscore
    only what was there. *)
Lemma elem_of_replace (s : string) (a : ascii) :
  a ∈ String.list_ascii_of_string (replace " " "_" s) →
  a ≠ " "%char ∧ (a = "_"%char ∨ a ∈ String.list_ascii_of_string s).
Proof.
  induction s as [|b s IH]; simpl; [by intros ?%elem_of_nil|].
  intros [->|Ha]%elem_of_cons.
  - destruct (Ascii.eqb b " ") eqn:E.
    + split; [discriminate|by left].
    + apply Ascii.eqb_neq in E. split; [done|]. right. by left.
  - destruct (IH Ha) as [Hne [->|Hin]]; (split; [done|]); [by left|].
    right. by right.
Qed.

(** The ASCII case mapping against the two alphabets. *)
Lemma ascii_lower_char_spec (a : ascii) : ascii_lower_char a = lowercase_spec a.
Proof. destruct a as [[] [] [] [] [] [] [] []]; reflexivity. Qed.

Lemma ascii_lower_spec (s : string) :
  ascii_lower s
  = String.string_of_list_ascii (map lowercase_spec (String.list_ascii_of_string s)).
Proof.
  induction s as [|a s IH]; [reflexivity|].
  simpl. by rewrite IH, ascii_lower_char_spec.
Qed.

Section Normalization.
Context `{!Python}.

Lemma normalize_idem (c : string) : normalize (normalize c) = normalize c.
Proof.
  unfold normalize. by rewrite lower_replace, lower_lower, replace_replace.
Qed.

Lemma normalize_lower (c : string) : normalize (lower c) = normalize c.
Proof. unfold normalize. by rewrite lower_lower. Qed.

Lemma normalize_replace (c : string) :
  normalize (replace " " "_" c) = normalize c.
Proof. unfold normalize. by rewrite lower_replace, replace_replace. Qed.

Lemma normalize_ascii (c : string) : is_ascii c → normalize c = normalize_spec c.
Proof.
  intros Hc. unfold normalize, normalize_spec.
  by rewrite (lower_ascii_text c Hc), replace_as_map, ascii_lower_spec.
Qed.

Lemma normalize_no_space_no_capital (c : string) (a : ascii) :
  a ∈ String.list_ascii_of_string (normalize c) → a ≠ " "%char ∧ ¬ capital a.
Proof.
  intros Ha. apply elem_of_replace in Ha as [Hne [->|Hin]]; (split; [done|]).
  - unfold capital. vm_compute. lia.
  - by apply (lower_no_capital c).
Qed.

(** No normalized name begins with the [N] of [No Issue]. *)
Lemma normalize_head_not_N (y s : string) (a : ascii) :
  normalize y = String a s → a ≠ "N"%char.
Proof.
  intros E ->.
  destruct (normalize_no_space_no_capital y "N"%char) as [_ Hcap].
  { rewrite E. by left. }
  apply Hcap. unfold capital. vm_compute. lia.
Qed.

Lemma normalize_not_No_Issue (y rest : string) :
  normalize y +:+ rest = "No Issue" → normalize y = "".
Proof.
  destruct (normalize y) as [|a s] eqn:E; [done|]. simpl. intros [= -> _].
  by apply normalize_head_not_N in E.
Qed.

Lemma join_normalized_not_No_Issue (l : list string) :
  l ≠ [] →
  Forall (λ x, ∃ y, x = normalize y) l →
  join ", " l ≠ "No Issue".
Proof.
  intros Hne Hall Heq. destruct l as [|x l]; [done|].
  apply Forall_cons in Hall as [[y ->] _].
  destruct l as [|x' l]; simpl in Heq.
  - by apply normalize_head_not_N in Heq.
  - pose proof (normalize_not_No_Issue _ _ Heq) as Hy.
    rewrite Hy in Heq. discriminate.
Qed.

(** C7. [normalize] gives the lowercase form of a name ([str.lower]) with
    every space replaced by an underscore, and nothing else: on a name
    written in ASCII this is, character by character, the small letter of
    the alphabet for a capital letter, the underscore for the space and
    the character itself otherwise. The result holds no space and no
    capital letter. It is a function of the name, and normalizing a
    normalized name, list of names or set of names changes nothing. *)
Theorem normalize_lowercase_underscore_idempotent :
  (∀ c, normalize c = underscore_spaces (lower c))
  ∧ (∀ c, is_ascii c → normalize c = normalize_spec c)
  ∧ (∀ c a, a ∈ String.list_ascii_of_string (normalize c) →
            a ≠ " "%char ∧ ¬ capital a)
  ∧ (∀ c, normalize (normalize c) = normalize c)
  ∧ (∀ cols, normalize_columns (normalize_columns cols) = normalize_columns cols)
  ∧ (∀ cols, (list_to_set (normalize_columns cols) : gset string)
             = set_map normalize (list_to_set cols : gset string))
  ∧ (∀ cols, set_map normalize (list_to_set (normalize_columns cols) : gset string)
             = (list_to_set (normalize_columns cols) : gset string)).
Proof.
  assert (Hl : ∀ cols, normalize_columns (normalize_columns cols) = normalize_columns cols).
  { intros cols. unfold normalize_columns. rewrite map_map.
    apply map_ext. intros c. apply normalize_idem. }
  assert (Hs : ∀ cols, (list_to_set (normalize_columns cols) : gset string)
             = set_map normalize (list_to_set cols : gset string)).
  { intros cols. apply set_eq. intros x. unfold normalize_columns.
    rewrite elem_of_list_to_set, elem_of_map, list_elem_of_fmap.
    by setoid_rewrite elem_of_list_to_set. }
  split_and!.
  - intros c. apply replace_as_map.
  - exact normalize_ascii.
  - exact normalize_no_space_no_capital.
  - exact normalize_idem.
  - exact Hl.
  - exact Hs.
  - intros cols. rewrite <- Hs. by rewrite Hl.
Qed.

End Normalization.

(** ** Schema difference *)

Lemma list_to_set_enum (o : SetOrder) (s : gset string) :
  list_to_set (enum o s) = s.
Proof.
  apply set_eq. intros x.
  rewrite elem_of_list_to_set, (enum_perm o s). apply elem_of_elements.
Qed.

Lemma elem_of_enum (o : SetOrder) (s : gset string) (x : string) :
  x ∈ enum o s ↔ x ∈ s.
Proof. rewrite (enum_perm o s). apply elem_of_elements. Qed.

Lemma NoDup_enum (o : SetOrder) (s : gset string) : NoDup (enum o s).
Proof. rewrite (enum_perm o s). apply NoDup_elements. Qed.

Lemma enum_nil (o : SetOrder) (s : gset string) : enum o s = [] ↔ s = ∅.
Proof.
  split.
  - intros E. apply set_eq. intros x. rewrite <- (elem_of_enum o), E. set_solver.
  - intros ->. apply Permutation_nil_r. rewrite (enum_perm o ∅).
    by rewrite elements_empty.
Qed.

Section Partition.
Context `{!Python}.

(** C4. The three lists of the schema difference, read as sets, are
    pairwise disjoint and their union is the union of the two normalized
    column-name sets; none of them lists a name twice. *)
Theorem schema_diff_partition (o : SetOrder) (source_columns target_columns : list string) :
  let source_cols : gset string := list_to_set (normalize_columns source_columns) in
  let target_cols : gset string := list_to_set (normalize_columns target_columns) in
  let d := diff_schema o (normalize_columns source_columns)
                         (normalize_columns target_columns) in
  let common : gset string := list_to_set (common_columns d) in
  let missingInTarget : gset string := list_to_set (missing_in_target d) in
  let missingInSource : gset string := list_to_set (missing_in_source d) in
  common ## missingInTarget
  ∧ common ## missingInSource
  ∧ missingInTarget ## missingInSource
  ∧ common ∪ missingInTarget ∪ missingInSource = source_cols ∪ target_cols
  ∧ NoDup (common_columns d)
  ∧ NoDup (missing_in_target d)
  ∧ NoDup (missing_in_source d).
Proof.
  simpl. rewrite !list_to_set_enum.
  generalize (list_to_set (normalize_columns source_columns) : gset string).
  generalize (list_to_set (normalize_columns target_columns) : gset string).
  intros T S.
  split_and!; try apply NoDup_enum.
  - intros x. rewrite elem_of_intersection, elem_of_difference. tauto.
  - intros x. rewrite elem_of_intersection, elem_of_difference. tauto.
  - intros x. rewrite !elem_of_difference. tauto.
  - apply set_eq. intros x.
    rewrite !elem_of_union, elem_of_intersection, !elem_of_difference.
    destruct (decide (x ∈ S)), (decide (x ∈ T)); tauto.
Qed.

End Partition.

Lemma truthy_true {A} (l : list A) : truthy l = true ↔ l ≠ [].
Proof. destruct l; simpl; split; congruence. Qed.

Lemma NoDup_same_set_length (l k : list string) :
  NoDup l → NoDup k →
  (list_to_set l : gset string) ∖ list_to_set k = ∅ →
  (list_to_set k : gset string) ∖ list_to_set l = ∅ →
  length l = length k.
Proof.
  intros Hl Hk E1 E2. apply Permutation_length, NoDup_Permutation; [done..|].
  intros x. split; intros Hx.
  - destruct (decide (x ∈ k)) as [|Hn]; [done|].
    assert (x ∈ (list_to_set l : gset string) ∖ list_to_set k) as Hin
      by (rewrite elem_of_difference, !elem_of_list_to_set; done).
    rewrite E1 in Hin. set_solver.
  - destruct (decide (x ∈ l)) as [|Hn]; [done|].
    assert (x ∈ (list_to_set k : gset string) ∖ list_to_set l) as Hin
      by (rewrite elem_of_difference, !elem_of_list_to_set; done).
    rewrite E2 in Hin. set_solver.
Qed.

(** ** The reserved names *)

Lemma indicator_pre_merge_ext (cols cols' : list string) :
  (∀ x, x ∈ cols ↔ x ∈ cols') →
  indicator_pre_merge cols = indicator_pre_merge cols'.
Proof.
  intros Hext. unfold indicator_pre_merge.
  rewrite (list_filter_iff (λ i, i ∈ cols) (λ i, i ∈ cols')) by done.
  by rewrite (bool_decide_ext _ _ (Hext "_merge")).
Qed.

Lemma indicator_pre_merge_None (cols : list string) :
  indicator_pre_merge cols = None ↔ ∀ x, x ∈ indicator_names → x ∉ cols.
Proof.
  unfold indicator_pre_merge, indicator_names.
  rewrite !filter_cons, filter_nil. split.
  - intros Hnone x Hx. repeat case_decide; try done.
    case_bool_decide; [done|].
    repeat (apply elem_of_cons in Hx as [->|Hx]; [done|]).
    by apply elem_of_nil in Hx.
  - intros Hall.
    rewrite !decide_False, bool_decide_eq_false_2; [done|..];
      apply Hall; set_solver.
Qed.

(** ** Keys of rows *)

Section Keys.
Context {A : Type}.
Implicit Types (cols labels : list string) (r : list A).

(** Two rows of one length have the same entries under the columns that
    satisfy [P] exactly when they agree at each of those positions. *)
Lemma filter_zip_agree (P : string → Prop)
    `{!∀ p : string * A, Decision (P p.1)} cols r r' :
  length r = length r' →
  (filter (λ p, P p.1) (zip cols r)).*2 = (filter (λ p, P p.1) (zip cols r')).*2
  ↔ ∀ i x, cols !! i = Some x → P x → r !! i = r' !! i.
Proof.
  revert r r'. induction cols as [|x cols IH]; intros r r' Hlen.
  { split; [intros _ i y Hi; by rewrite lookup_nil in Hi|done]. }
  destruct r as [|a r], r' as [|a' r']; simplify_eq/=.
  { split; [done|done]. }
  specialize (IH r r' Hlen).
  rewrite !filter_cons. simpl. repeat case_decide; try done; simpl.
  - split.
    + intros [= -> Hrest] [|i] y Hy HP; simpl; [done|].
      by eapply IH in Hrest.
    + intros Hall. f_equal.
      * assert (Some a = Some a') as [= ->] by (by apply (Hall 0 x)). done.
      * apply IH. intros i y Hy HP. by apply (Hall (S i) y).
  - rewrite IH. split.
    + intros Hall [|i] y Hy HP; simplify_eq/=; [done|by eapply Hall].
    + intros Hall i y Hy HP. by apply (Hall (S i) y).
Qed.

Lemma length_filter_zip (P : string → Prop)
    `{!∀ p : string * A, Decision (P p.1)} cols r r' :
  length r = length r' →
  length (filter (λ p, P p.1) (zip cols r)).*2
  = length (filter (λ p, P p.1) (zip cols r')).*2.
Proof.
  revert r r'. induction cols as [|x cols IH]; intros r r' Hlen; [done|].
  destruct r as [|a r], r' as [|a' r']; simplify_eq/=; [done|].
  rewrite !filter_cons. simpl. repeat case_decide; try done; simpl; auto.
Qed.

Lemma project_cons c labels cols r :
  project (c :: labels) cols r = under c cols r ++ project labels cols r.
Proof. reflexivity. Qed.

Lemma project_agree labels cols r r' :
  length r = length r' →
  project labels cols r = project labels cols r'
  ↔ ∀ i x, cols !! i = Some x → x ∈ labels → r !! i = r' !! i.
Proof.
  intros Hlen. induction labels as [|c labels IH].
  { split; [intros _ i x _ Hx; by apply elem_of_nil in Hx|done]. }
  rewrite !project_cons. unfold under. split.
  - intros Happ. apply app_inj_1 in Happ as [Hc Hrest];
      [|by apply (length_filter_zip (λ x, x = c))].
    intros i x Hi [->|Hx]%elem_of_cons.
    + by eapply (filter_zip_agree (λ x, x = c)) in Hc.
    + by eapply IH in Hrest.
  - intros Hall. f_equal.
    + apply (filter_zip_agree (λ x, x = c)); [done|].
      intros i x Hi ->. eapply Hall; [done|]. by left.
    + apply IH. intros i x Hi Hx. eapply Hall; [done|]. by right.
Qed.

(** The key [duplicated] compares (in column order) and the projection onto
    the labels (in label order) identify the same rows. *)
Lemma frame_key_project labels cols r r' :
  length r = length r' →
  (filter (λ p, p.1 ∈ labels) (zip cols r)).*2
  = (filter (λ p, p.1 ∈ labels) (zip cols r')).*2
  ↔ project labels cols r = project labels cols r'.
Proof.
  intros Hlen.
  rewrite (filter_zip_agree (λ x, x ∈ labels)), project_agree; done.
Qed.

(** The projection only reads which labels are listed, not their order. *)
Lemma project_agree_perm labels labels' cols r r' :
  length r = length r' →
  (∀ x, x ∈ labels ↔ x ∈ labels') →
  project labels cols r = project labels cols r'
  ↔ project labels' cols r = project labels' cols r'.
Proof.
  intros Hlen Hl. rewrite !project_agree by done.
  split; intros Hall i x Hi Hx; eapply Hall; try done; by apply Hl.
Qed.

Lemma under_cons_eq c cols (a : A) r :
  under c (c :: cols) (a :: r) = a :: under c cols r.
Proof. unfold under. simpl. rewrite filter_cons. simpl. by destruct (decide (c = c)). Qed.

Lemma under_cons_ne c x cols (a : A) r :
  x ≠ c → under c (x :: cols) (a :: r) = under c cols r.
Proof.
  intros Hne. unfold under. simpl. rewrite filter_cons. simpl.
  by destruct (decide (x = c)).
Qed.

Lemma under_not_in c cols r : c ∉ cols → under c cols r = [].
Proof.
  revert r. induction cols as [|x cols IH]; intros r Hc; [done|].
  apply not_elem_of_cons in Hc as [Hne Hc].
  destruct r as [|a r]; [done|]. rewrite under_cons_ne by done. by apply IH.
Qed.

Lemma under_once c cols r :
  NoDup cols → c ∈ cols → length r = length cols → length (under c cols r) = 1.
Proof.
  revert r. induction cols as [|x cols IH]; intros r Hnd Hc Hlen.
  { by apply elem_of_nil in Hc. }
  destruct r as [|a r]; [done|]. apply NoDup_cons in Hnd as [Hx Hnd].
  destruct (decide (x = c)) as [->|Hne].
  - by rewrite under_cons_eq, under_not_in.
  - rewrite under_cons_ne by done. apply IH; [done| |by simplify_eq/=].
    apply elem_of_cons in Hc as [?|?]; [congruence|done].
Qed.

Lemma project_length labels cols r :
  NoDup cols → Forall (λ x, x ∈ cols) labels → length r = length cols →
  length (project labels cols r) = length labels.
Proof.
  intros Hnd Hsub Hlen. induction Hsub as [|c labels Hc Hsub IH]; [done|].
  rewrite project_cons, length_app, IH, under_once by done. done.
Qed.

(** Selecting every column, in order, gives the row back. *)
Lemma project_id labels r :
  NoDup labels → length r = length labels → project labels labels r = r.
Proof.
  revert r. induction labels as [|c labels IH]; intros r Hnd Hlen.
  { by destruct r. }
  destruct r as [|a r]; [done|]. apply NoDup_cons in Hnd as [Hc Hnd].
  rewrite project_cons, under_cons_eq, under_not_in by done. simpl. f_equal.
  rewrite <- (IH r) at 2 by (by simplify_eq/=).
  unfold project. apply Forall_bind_ext, Forall_forall. intros x Hx.
  apply under_cons_ne. by intros ->.
Qed.

(** Value tuples taken from two frames are equal exactly when they agree
    label by label. *)
Lemma project_eq_pointwise labels cols cols' r r' :
  NoDup cols → NoDup cols' →
  Forall (λ x, x ∈ cols) labels → Forall (λ x, x ∈ cols') labels →
  length r = length cols → length r' = length cols' →
  project labels cols r = project labels cols' r'
  ↔ ∀ x, x ∈ labels → under x cols r = under x cols' r'.
Proof.
  intros Hnd Hnd' Hsub Hsub' Hlen Hlen'.
  induction labels as [|x labels IH].
  { split; [intros _ x Hx; by apply elem_of_nil in Hx|done]. }
  apply Forall_cons in Hsub as [Hx Hsub]. apply Forall_cons in Hsub' as [Hx' Hsub'].
  rewrite !project_cons. split.
  - intros Happ. apply app_inj_1 in Happ as [Hhead Hrest];
      [|by rewrite !under_once].
    intros y [->|Hy]%elem_of_cons; [done|]. by apply IH.
  - intros Hall. f_equal; [apply Hall; by left|].
    apply IH; [done..|]. intros y Hy. apply Hall. by right.
Qed.

End Keys.

Lemma under_self c (cols : list string) :
  NoDup cols → c ∈ cols → under c cols cols = [c].
Proof.
  induction cols as [|x cols IH]; intros Hnd Hc.
  { by apply elem_of_nil in Hc. }
  apply NoDup_cons in Hnd as [Hx Hnd].
  destruct (decide (x = c)) as [->|Hne].
  - by rewrite under_cons_eq, under_not_in.
  - rewrite under_cons_ne by done. apply IH; [done|].
    apply elem_of_cons in Hc as [?|?]; [congruence|done].
Qed.

(** Selecting labels from the column list gives the labels back. *)
Lemma project_self (labels cols : list string) :
  NoDup cols → Forall (λ x, x ∈ cols) labels → project labels cols cols = labels.
Proof.
  intros Hnd Hsub. induction Hsub as [|c labels Hc Hsub IH]; [done|].
  by rewrite project_cons, under_self, IH.
Qed.

Lemma filter_Forall {X} (P : X → Prop) `{!∀ x, Decision (P x)} (l : list X) :
  Forall P l → filter P l = l.
Proof.
  induction 1 as [|x l Hx Hl IH]; [done|].
  by rewrite filter_cons_True, IH.
Qed.

(** ** Labels without repetition *)

Lemma elem_of_unique (l : list string) (x : string) : x ∈ unique l ↔ x ∈ l.
Proof.
  induction l as [|y l IH]; [done|].
  simpl. rewrite !elem_of_cons, list_elem_of_filter, IH.
  destruct (decide (x = y)) as [->|Hne]; [split; intros _; by left|].
  split; [intros [?|[_ ?]]; [done|by right]|intros [?|?]; [done|right; by split]].
Qed.

Lemma unique_NoDup (l : list string) : NoDup l → unique l = l.
Proof.
  induction 1 as [|x l Hx Hnd IH]; [done|].
  simpl. rewrite IH. f_equal. apply filter_Forall, Forall_forall.
  intros y Hy ->. done.
Qed.

Lemma filter_unique_replicate (x : string) (n : nat) (l : list string) :
  filter (λ y, y ≠ x) (unique (replicate n x ++ l))
  = filter (λ y, y ≠ x) (unique l).
Proof.
  induction n as [|n IH]; [done|].
  simpl. rewrite filter_cons_False by (by intros ?).
  rewrite <- IH. clear IH. generalize (unique (replicate n x ++ l)).
  intros k. induction k as [|y k IH]; [done|].
  rewrite !filter_cons. destruct (decide (y ≠ x)); [|done].
  rewrite filter_cons_True by done. by rewrite IH.
Qed.

(** The distinct labels [labels], each repeated at least once, one after
    the other: the labels are [labels]. *)
Lemma unique_repeated (labels : list string) (n : string → nat) :
  NoDup labels →
  Forall (λ x, 0 < n x) labels →
  unique (labels ≫= (λ x, replicate (n x) x)) = labels.
Proof.
  induction 1 as [|x labels Hx Hnd IH]; intros Hpos; [done|].
  apply Forall_cons in Hpos as [Hn Hpos].
  rewrite bind_cons. destruct (n x) as [|k]; [lia|].
  simpl. f_equal. rewrite filter_unique_replicate, IH by done.
  apply filter_Forall, Forall_forall. intros y Hy ->. done.
Qed.

(** ** Occurrences and the flags of [duplicated] *)

Section Occurrences.
Context {K : Type} `{EqDecision K}.
Implicit Types (k : K) (keys seen : list K).

Lemma occurrences_cons k k' keys :
  occurrences k (k' :: keys)
  = (if decide (k' = k) then 1 else 0) + occurrences k keys.
Proof. unfold occurrences. rewrite filter_cons. by destruct (decide (k' = k)). Qed.

Lemma occurrences_pos k keys : 0 < occurrences k keys ↔ k ∈ keys.
Proof.
  induction keys as [|k' keys IH].
  { split; [inversion 1|by intros ?%elem_of_nil]. }
  rewrite occurrences_cons, elem_of_cons.
  destruct (decide (k' = k)) as [->|Hne]; [split; [by left|lia]|].
  rewrite <- IH. split; [intros ?; right; lia|intros [->|?]; [done|lia]].
Qed.

Lemma flag_duplicates_spec seen keys :
  flag_duplicates seen keys
  = map (λ k, bool_decide (k ∈ seen ∨ 2 ≤ occurrences k keys)) keys.
Proof.
  revert seen. induction keys as [|k keys IH]; intros seen; [done|].
  simpl. f_equal.
  - rewrite occurrences_cons. destruct (decide (k = k)); [|done].
    pose proof (occurrences_pos k keys) as Hpos.
    rewrite <- bool_decide_or. apply bool_decide_ext. rewrite <- Hpos.
    split; (intros [?|?]; [by left|right; lia]).
  - rewrite IH. apply Forall_fmap_ext, Forall_forall. intros k' Hk'.
    apply bool_decide_ext. rewrite occurrences_cons, elem_of_cons.
    apply occurrences_pos in Hk'.
    destruct (decide (k = k')) as [->|Hne]; simpl.
    + split; [intros _; right; lia|intros _; by left; left].
    + split; [intros [[?|?]|?]; [congruence|by left|by right]
             |intros [?|?]; [left; by right|by right]].
Qed.

Lemma sum_bool_map {X} (f : X → bool) (l : list X) :
  sum_bool (map f l) = length (filter (λ x, f x = true) l).
Proof.
  unfold sum_bool. induction l as [|x l IH]; [done|].
  simpl. rewrite !filter_cons. destruct (decide (f x = true)); simpl; lia.
Qed.

(** The number of flagged rows: the keys that are listed at least twice,
    each counted as often as it is listed. *)
Lemma sum_bool_flag_duplicates keys :
  sum_bool (flag_duplicates [] keys)
  = length (filter (λ k, 2 ≤ occurrences k keys) keys).
Proof.
  rewrite flag_duplicates_spec, sum_bool_map.
  f_equal. apply list_filter_iff. intros k.
  rewrite bool_decide_eq_true. split; [intros [?%elem_of_nil|?]; done|by right].
Qed.

Lemma length_filter_mono (P Q : K → Prop)
    `{!∀ x, Decision (P x)} `{!∀ x, Decision (Q x)} keys :
  (∀ k, P k → Q k) → length (filter P keys) ≤ length (filter Q keys).
Proof.
  intros HPQ. induction keys as [|k keys IH]; [done|].
  rewrite !filter_cons. destruct (decide (P k)), (decide (Q k)); simpl; try lia.
  naive_solver.
Qed.

(** A flagged row never comes alone. *)
Lemma duplicates_not_one keys :
  let n := length (filter (λ k, 2 ≤ occurrences k keys) keys) in
  n = 0 ∨ 2 ≤ n.
Proof.
  simpl. destruct (filter (λ k, 2 ≤ occurrences k keys) keys) as [|k l] eqn:E;
    [by left|right].
  assert (k ∈ filter (λ k, 2 ≤ occurrences k keys) keys) as Hk
    by (rewrite E; by left).
  apply list_elem_of_filter in Hk as [Hk _]. rewrite <- E.
  etransitivity; [exact Hk|]. unfold occurrences at 1.
  apply length_filter_mono. by intros k' ->.
Qed.

Lemma length_filter_fmap {X} (f : X → K) (P : K → Prop)
    `{!∀ x, Decision (P x)} (l : list X) :
  length (filter P (map f l)) = length (filter (λ x, P (f x)) l).
Proof.
  induction l as [|x l IH]; [done|].
  simpl. rewrite !filter_cons. destruct (decide (P (f x))); simpl; lia.
Qed.

Lemma length_filter_ext (P Q : K → Prop)
    `{!∀ x, Decision (P x)} `{!∀ x, Decision (Q x)} keys :
  (∀ k, k ∈ keys → P k ↔ Q k) → length (filter P keys) = length (filter Q keys).
Proof.
  induction keys as [|k keys IH]; intros Hext; [done|].
  rewrite !filter_cons.
  assert (P k ↔ Q k) as Hk by (apply Hext; by left).
  assert (length (filter P keys) = length (filter Q keys)) as IH'
    by (apply IH; intros k' ?; apply Hext; by right).
  destruct (decide (P k)), (decide (Q k)); simpl; tauto || lia.
Qed.

(** Counting the keys that satisfy [Q], group by group, over a list [ds] of
    distinct keys. *)
Lemma length_filter_groups (Q : K → Prop) `{!∀ x, Decision (Q x)} keys ds :
  NoDup ds →
  length (filter (λ k, k ∈ ds ∧ Q k) keys)
  = sum_list (map (λ k, occurrences k keys) (filter Q ds)).
Proof.
  induction 1 as [|d ds Hd Hnd IH].
  { rewrite (length_filter_ext _ (λ _, False)).
    - induction keys as [|k keys IHk]; [done|].
      rewrite filter_cons. by destruct (decide False).
    - intros k _. split; [intros [?%elem_of_nil _]; done|done]. }
  transitivity ((if decide (Q d) then occurrences d keys else 0)
                + length (filter (λ k, k ∈ ds ∧ Q k) keys)).
  - clear IH. induction keys as [|k keys IHk].
    { by destruct (decide (Q d)). }
    rewrite !filter_cons, occurrences_cons.
    destruct (decide (k = d)) as [->|Hne].
    + destruct (decide (d ∈ d :: ds ∧ Q d)) as [[_ HQ]|Hn],
        (decide (d ∈ ds ∧ Q d)) as [[? _]|_]; try done.
      * destruct (decide (Q d)); [|done]. simpl in *. lia.
      * destruct (decide (Q d)) as [HQ|]; [|simpl in *; lia].
        exfalso. apply Hn. split; [by left|done].
    + destruct (decide (k ∈ d :: ds ∧ Q k)) as [[Hin HQ]|Hn],
        (decide (k ∈ ds ∧ Q k)) as [[Hin' HQ']|Hn']; simpl in *.
      * destruct (decide (Q d)); lia.
      * exfalso. apply Hn'. apply elem_of_cons in Hin as [?|?]; [congruence|done].
      * exfalso. apply Hn. split; [by right|done].
      * destruct (decide (Q d)); lia.
  - rewrite IH, filter_cons. by destruct (decide (Q d)).
Qed.

Lemma sum_list_filter_fmap {X} (f : X → nat) (P : nat → Prop)
    `{!∀ n, Decision (P n)} (l : list X) :
  sum_list (filter P (map f l)) = sum_list (map f (filter (λ x, P (f x)) l)).
Proof.
  induction l as [|x l IH]; [done|].
  simpl. rewrite !filter_cons. destruct (decide (P (f x))); simpl; lia.
Qed.

(** The keys listed more than once, counted with multiplicity, are the sum
    of the sizes of the groups of more than one element. *)
Lemma duplicates_group_sum keys :
  length (filter (λ k, 1 < occurrences k keys) keys)
  = sum_list (filter (λ n, 1 < n)
                (map (λ k, occurrences k keys) (remove_dups keys))).
Proof.
  rewrite sum_list_filter_fmap.
  rewrite <- (length_filter_groups (λ k, 1 < occurrences k keys));
    [|apply NoDup_remove_dups].
  apply length_filter_ext. intros k Hk. rewrite elem_of_remove_dups. tauto.
Qed.

(** Equivalently: all keys, minus those that are listed once. *)
Lemma duplicates_total_minus_singletons keys :
  length (filter (λ k, 1 < occurrences k keys) keys)
  = length keys - length (filter (λ k, occurrences k keys = 1) keys).
Proof.
  assert (∀ l, (∀ k, k ∈ l → 0 < occurrences k keys) →
    length (filter (λ k, 1 < occurrences k keys) l)
    + length (filter (λ k, occurrences k keys = 1) l) = length l) as Hsplit.
  { induction l as [|k l IH]; intros Hpos; [done|].
    rewrite !filter_cons.
    assert (0 < occurrences k keys) by (apply Hpos; by left).
    assert (length (filter (λ k, 1 < occurrences k keys) l)
            + length (filter (λ k, occurrences k keys = 1) l) = length l) as IH'
      by (apply IH; intros ??; apply Hpos; by right).
    destruct (decide (1 < occurrences k keys)),
      (decide (occurrences k keys = 1)); simpl; lia. }
  specialize (Hsplit keys (λ k Hk, proj2 (occurrences_pos k keys) Hk)). lia.
Qed.

End Occurrences.

Lemma occurrences_fmap_equiv {X K K'} `{EqDecision K} `{EqDecision K'}
    (f : X → K) (g : X → K') (x : X) (l : list X) :
  (∀ y, y ∈ l → f y = f x ↔ g y = g x) →
  occurrences (f x) (map f l) = occurrences (g x) (map g l).
Proof.
  induction l as [|y l IH]; intros Heq; [done|].
  simpl. rewrite !occurrences_cons.
  assert (f y = f x ↔ g y = g x) as Hy by (apply Heq; by left).
  rewrite IH by (intros ??; apply Heq; by right).
  destruct (decide (f y = f x)), (decide (g y = g x)); tauto || lia.
Qed.

Section Properties.
Context `{!Python} {cell : Type} `{EqDecision cell} `{!Dtypes cell} `{!Pandas cell}.
Implicit Types (source_df target_df df : DataFrame cell) (o : SetOrder).
Implicit Types (r : list cell) (c : Comparison cell).

(** What a successful [reconcile] returns. *)
Lemma reconcile_Ok o source_df target_df c :
  reconcile o source_df target_df = Ok c →
  let S := set_columns source_df (normalize_columns (columns source_df)) in
  let T := set_columns target_df (normalize_columns (columns target_df)) in
  let d := diff_schema o (columns S) (columns T) in
  schema_diff c = d
  ∧ source_row_count c = length (rows source_df)
  ∧ target_row_count c = length (rows target_df)
  ∧ source_column_count c = length (columns source_df)
  ∧ target_column_count c = length (columns target_df)
  ∧ rows_missing_in_target S T (common_columns d) = Ok (missing_rows c)
  ∧ duplicate_count T (common_columns d) = Ok (duplicates c).
Proof.
  unfold reconcile. intros Hc.
  destruct (rows_missing_in_target _ _ _) as [missing|] eqn:Hm; [|discriminate].
  destruct (duplicate_count _ _) as [n|] eqn:Hd; [|discriminate].
  injection Hc as <-. simpl.
  unfold normalize_columns. rewrite !length_map. done.
Qed.

(** ** Column counts against the schema difference *)

(** C10. When neither dataset has two columns with the same normalized
    name, column counts that differ force a name that is missing on one
    side: the schema mismatch is not empty, so in a comparison where the
    Column Count Mismatch check fails the Schema Mismatch check fails too. *)
Theorem column_count_mismatch_implies_schema_mismatch o source_df target_df :
  NoDup (normalize_columns (columns source_df)) →
  NoDup (normalize_columns (columns target_df)) →
  let d := diff_schema o (normalize_columns (columns source_df))
                         (normalize_columns (columns target_df)) in
  (length (columns source_df) ≠ length (columns target_df) →
   (list_to_set (missing_in_target d) ∪ list_to_set (missing_in_source d)
      : gset string) ≠ ∅
   ∧ schema_mismatch d ≠ [])
  ∧ (∀ c, reconcile o source_df target_df = Ok c →
          column_count_mismatch c = true →
          truthy (schema_mismatch (schema_diff c)) = true).
Proof.
  intros Hs Ht d.
  assert (Hmain : length (columns source_df) ≠ length (columns target_df) →
                  schema_mismatch d ≠ []).
  { intros Hlen Hnil. apply Hlen.
    apply app_eq_nil in Hnil as [E1 E2].
    apply enum_nil in E1. apply enum_nil in E2.
    pose proof (NoDup_same_set_length _ _ Hs Ht E1 E2) as Hl.
    unfold normalize_columns in Hl. by rewrite !length_map in Hl. }
  split.
  - intros Hlen. split; [|by apply Hmain].
    intros Hempty. apply (Hmain Hlen).
    unfold schema_mismatch. subst d. simpl in *.
    apply empty_union_L in Hempty as [E1 E2].
    rewrite list_to_set_enum in E1. rewrite list_to_set_enum in E2.
    rewrite E1, E2.
    assert (enum o ∅ = []) as -> by by apply enum_nil. done.
  - intros c Hc Hcc. apply reconcile_Ok in Hc as (-> & _ & _ & Hsc & Htc & _).
    apply truthy_true, Hmain.
    unfold column_count_mismatch in Hcc. apply bool_decide_eq_true in Hcc.
    by rewrite Hsc, Htc in Hcc.
Qed.

(** ** Duplicates in the target *)

Lemma duplicate_count_flagged df (subset : list string) :
  Forall (λ x, x ∈ columns df) subset →
  ∃ keys : list (list cell),
    duplicate_count df subset
    = Ok (length (filter (λ k, 2 ≤ occurrences k keys) keys)).
Proof.
  intros Hsub. unfold duplicate_count, duplicated.
  case_bool_decide; [by exists []|].
  rewrite bool_decide_eq_true_2 by done.
  eexists. by rewrite sum_bool_flag_duplicates.
Qed.

Lemma duplicate_count_rows target_df (common : list string) :
  rectangular target_df →
  common ≠ [] →
  Forall (λ x, x ∈ columns target_df) common →
  duplicate_count target_df common
  = Ok (length (duplicate_rows_spec target_df common)).
Proof.
  intros Hrect Hne Hsub. unfold duplicate_count, duplicated, duplicate_rows_spec.
  case_bool_decide as Hempty.
  { destruct Hempty as [->| Hcols]; [done|].
    destruct common as [|x common]; [done|].
    apply Forall_cons in Hsub as [Hx _]. rewrite Hcols in Hx.
    by apply elem_of_nil in Hx. }
  rewrite bool_decide_eq_true_2 by done. f_equal.
  rewrite sum_bool_flag_duplicates, length_filter_fmap.
  apply length_filter_ext. intros r Hr.
  rewrite (occurrences_fmap_equiv
             (λ r0 : list cell,
                (filter (λ p : string * cell, p.1 ∈ common)
                   (zip (columns target_df) r0)).*2)
             (value_tuple common target_df) r (rows target_df)); [done|].
  intros r' Hr'. unfold value_tuple. apply frame_key_project.
  unfold rectangular in Hrect. rewrite Forall_forall in Hrect.
  rewrite (Hrect r Hr), (Hrect r' Hr'). done.
Qed.

(** C3. Over a non-empty set of common columns, [duplicate_count] is the
    number of target rows whose common-column value tuple occurs more than
    once in the target, every row of a group of duplicates counted; it is
    the sum of the sizes of the groups of more than one row, and the number
    of rows minus the rows in singleton groups; [has_duplicates] holds iff
    the count is positive; for the rows [r1, r1, r2] the count is 2 and the
    rows counted are the two copies of [r1]. *)
Theorem duplicate_count_counts_every_member target_df (common : list string) :
  rectangular target_df →
  common ≠ [] →
  Forall (λ x, x ∈ columns target_df) common →
  duplicate_count target_df common
  = Ok (length (duplicate_rows_spec target_df common))
  ∧ length (duplicate_rows_spec target_df common)
    = detect_duplicates_spec target_df common
  ∧ length (duplicate_rows_spec target_df common)
    = total_minus_singletons_spec target_df common
  ∧ (∀ c, has_duplicates c = true ↔ 0 < duplicates c)
  ∧ (∀ r1 r2, rows target_df = [r1; r1; r2] →
              value_tuple common target_df r1 ≠ value_tuple common target_df r2 →
              duplicate_count target_df common = Ok 2
              ∧ duplicate_rows_spec target_df common = [r1; r1]).
Proof.
  intros Hrect Hne Hsub.
  pose proof (duplicate_count_rows _ _ Hrect Hne Hsub) as Hcount.
  assert (length (duplicate_rows_spec target_df common)
          = length (filter (λ k, 1 < occurrences k
                        (map (value_tuple common target_df) (rows target_df)))
                      (map (value_tuple common target_df) (rows target_df)))) as Hlen.
  { unfold duplicate_rows_spec. by rewrite length_filter_fmap. }
  split_and!.
  - done.
  - rewrite Hlen. apply duplicates_group_sum.
  - rewrite Hlen, duplicates_total_minus_singletons.
    unfold total_minus_singletons_spec. by rewrite length_map.
  - intros c. unfold has_duplicates. apply bool_decide_eq_true.
  - intros r1 r2 Hrows Hdiff.
    assert (duplicate_rows_spec target_df common = [r1; r1]) as Hspec.
    { unfold duplicate_rows_spec. rewrite Hrows. simpl.
      rewrite !filter_cons, !occurrences_cons, filter_nil.
      change (occurrences ?k []) with 0.
      repeat (case_decide; simplify_eq/=; try lia); done. }
    split; [|done]. by rewrite Hcount, Hspec.
Qed.

(** C9. [duplicate_count] is never exactly 1: it is 0 or at least 2, and
    [has_duplicates] holds iff it is at least 2. *)
Theorem duplicate_count_never_one target_df (common : list string) :
  Forall (λ x, x ∈ columns target_df) common →
  ∃ n, duplicate_count target_df common = Ok n
       ∧ n ≠ 1
       ∧ (n = 0 ∨ 2 ≤ n)
       ∧ (∀ c, duplicates c = n → has_duplicates c = true ↔ 2 ≤ duplicates c).
Proof.
  intros Hsub. destruct (duplicate_count_flagged _ _ Hsub) as [keys Hn].
  eexists. split; [exact Hn|].
  pose proof (duplicates_not_one keys) as Hno. simpl in Hno.
  split_and!; [lia|lia|].
  intros c Hc. unfold has_duplicates. rewrite bool_decide_eq_true. lia.
Qed.

(** ** Rows missing in the target *)

Lemma filter_ext_in {X} (P Q : X → Prop)
    `{!∀ x, Decision (P x)} `{!∀ x, Decision (Q x)} (l : list X) :
  (∀ x, x ∈ l → P x ↔ Q x) → filter P l = filter Q l.
Proof.
  induction l as [|x l IH]; intros Hext; [done|].
  rewrite !filter_cons.
  assert (P x ↔ Q x) as Hx by (apply Hext; by left).
  rewrite IH by (intros ??; apply Hext; by right).
  destruct (decide (P x)), (decide (Q x)); tauto || done.
Qed.

(** The [left_only] rows of a left join are the left rows without a match. *)
Lemma left_only_rows {X Y K} `{EqDecision K}
    (kl : X → K) (kr : Y → K) (xs : list X) (ys : list Y) :
  (filter (λ p, p.2 = left_only)
     (xs ≫= (λ a,
        match filter (λ b, bool_decide (kl a = kr b) = true) ys with
        | [] => [(a, left_only)]
        | matches => map (λ _, (a, both)) matches
        end))).*1
  = filter (λ a, kl a ∉ map kr ys) xs.
Proof.
  induction xs as [|a xs IH]; [done|].
  rewrite bind_cons, filter_app, fmap_app, IH. clear IH.
  destruct (filter (λ b, bool_decide (kl a = kr b) = true) ys) as [|y ms] eqn:E.
  - rewrite (filter_cons_True (λ p : X * indicator, p.2 = left_only)) by done.
    rewrite (filter_cons_True (λ a, kl a ∉ map kr ys)); [done|].
    intros (b & Hb & Hin)%list_elem_of_fmap.
    apply (filter_nil_not_elem_of _ _ b E); [|done]. by apply bool_decide_eq_true.
  - assert (∀ ms' : list Y,
      filter (λ p : X * indicator, p.2 = left_only)
             (map (λ _, (a, both)) ms') = []) as ->.
    { induction ms' as [|? ? IHms]; [done|].
      simpl. by rewrite filter_cons_False. }
    rewrite (filter_cons_False (λ a, kl a ∉ map kr ys)); [done|].
    intros Hn. apply Hn.
    assert (y ∈ filter (λ b, bool_decide (kl a = kr b) = true) ys)
      as [Hy Hin]%list_elem_of_filter by (rewrite E; by left).
    apply bool_decide_eq_true in Hy. apply list_elem_of_fmap. by exists y.
Qed.

(** The labels that two frames over the distinct labels [common] share. *)
Lemma common_cols_all_keys (common : list string) :
  NoDup common →
  filter (λ x : string, x ∈ common) (unique common) = common.
Proof.
  intros Hnd. rewrite unique_NoDup by done.
  apply filter_Forall. by apply Forall_forall.
Qed.

(** The merge of two frames that carry exactly the labels [common]. *)
Lemma merge_left_indicator_all_keys (left_df right_df : DataFrame cell)
    (common : list string) :
  columns left_df = common →
  columns right_df = common →
  NoDup common →
  common ≠ [] →
  (∀ x, x ∈ indicator_names → x ∉ common) →
  Forall (λ r, length r = length common) (rows left_df) →
  Forall (λ r, length r = length common) (rows right_df) →
  no_coercion common left_df right_df →
  ∃ m, merge_left_indicator left_df right_df = Ok m
       ∧ query_left_only_drop m
         = {| columns := common;
              dtypes := dtypes left_df;
              rows := filter (λ l, l ∉ rows right_df) (rows left_df) |}.
Proof.
  intros Hl Hr Hnd Hne Hres Hll Hlr Hco. unfold merge_left_indicator.
  cbv zeta. rewrite Hl, Hr, common_cols_all_keys by done.
  rewrite bool_decide_eq_false_2 by done.
  assert (filter (λ x : string, x ∈ common) common = common) as ->.
  { apply filter_Forall. by apply Forall_forall. }
  rewrite bool_decide_eq_true_2 by done.
  unfold maybe_coerce_merge_keys. rewrite bool_decide_eq_true_2 by done.
  assert (indicator_pre_merge (common ++ common) = None) as ->.
  { apply indicator_pre_merge_None. intros x Hx Hin.
    apply (Hres x Hx). by apply elem_of_app in Hin as [?|?]. }
  eexists. split; [reflexivity|].
  unfold query_left_only_drop. cbn [m_rows m_columns m_dtypes]. rewrite Hl. f_equal.
  rewrite (left_only_rows (project common common) (project common common)).
  assert (map (project common common) (rows right_df) = rows right_df) as ->.
  { rewrite <- (list_fmap_id (rows right_df)) at 2.
    apply Forall_fmap_ext. eapply Forall_impl; [exact Hlr|].
    intros r Hlen. by apply project_id. }
  apply filter_ext_in. intros l Hin.
  rewrite Forall_forall in Hll. by rewrite project_id by auto.
Qed.

Lemma getitem_Ok df (labels : list string) :
  NoDup (columns df) →
  Forall (λ x, x ∈ columns df) labels →
  getitem df labels
  = Ok {| columns := labels;
          dtypes := key_dtypes labels df;
          rows := map (value_tuple labels df) (rows df) |}.
Proof.
  intros Hnd Hsub. unfold getitem.
  rewrite bool_decide_eq_true_2 by done. by rewrite project_self.
Qed.

(** Datasets that can be compared as they are give operands whose keys
    [merge] compares as they are. *)
Lemma comparable_no_coercion source_df target_df (common : list string) :
  Forall (λ x, x ∈ columns source_df) common →
  Forall (λ x, x ∈ columns target_df) common →
  comparable source_df target_df →
  no_coercion common source_df target_df.
Proof.
  intros Hss Hst [Hc|[Hc|Hc]]; [by left|by right; left|right; right].
  unfold key_dtypes, project. apply Forall_bind_ext, Forall_forall.
  intros x Hx. rewrite Forall_forall in Hss, Hst, Hc.
  apply (Hc x); auto.
Qed.

Lemma no_coercion_selection source_df target_df (common cs ct : list string) :
  no_coercion common source_df target_df →
  no_coercion common
    {| columns := common;
       dtypes := key_dtypes common source_df;
       rows := map (project common cs) (rows source_df) |}
    {| columns := common;
       dtypes := key_dtypes common target_df;
       rows := map (project common ct) (rows target_df) |}.
Proof.
  unfold no_coercion. simpl.
  intros [[Hs Ht]|[[Hs Ht]|Hk]].
  - left. split; [by rewrite Hs|]. by destruct (rows target_df).
  - right. left. split; [by destruct (rows source_df)|by rewrite Ht].
  - right. right. unfold key_dtypes at 1 3. simpl. by rewrite Hk.
Qed.

(** The anti-join, for any list of distinct labels that both frames carry. *)
Lemma rows_missing_in_target_anti_join source_df target_df (common : list string) :
  rectangular source_df →
  rectangular target_df →
  NoDup (columns source_df) →
  NoDup (columns target_df) →
  NoDup common →
  Forall (λ x, x ∈ columns source_df) common →
  Forall (λ x, x ∈ columns target_df) common →
  common ≠ [] →
  (∀ x, x ∈ indicator_names → x ∉ common) →
  no_coercion common source_df target_df →
  rows_missing_in_target source_df target_df common
  = Ok {| columns := common;
          dtypes := key_dtypes common source_df;
          rows := find_missing_rows_spec source_df target_df common |}.
Proof.
  intros Hrs Hrt Hns Hnt Hnd Hss Hst Hne Hres Hco. unfold rows_missing_in_target.
  rewrite !getitem_Ok by done.
  edestruct (merge_left_indicator_all_keys
    {| columns := common; dtypes := key_dtypes common source_df;
       rows := map (value_tuple common source_df) (rows source_df) |}
    {| columns := common; dtypes := key_dtypes common target_df;
       rows := map (value_tuple common target_df) (rows target_df) |}
    common) as (m & -> & ->); try done.
  - apply Forall_fmap. eapply Forall_impl; [exact Hrs|].
    intros r Hlen. by apply project_length.
  - apply Forall_fmap. eapply Forall_impl; [exact Hrt|].
    intros r Hlen. by apply project_length.
  - by apply no_coercion_selection.
Qed.

Lemma common_columns_facts o (source_columns target_columns : list string) :
  let common := common_columns (diff_schema o source_columns target_columns) in
  NoDup common
  ∧ Forall (λ x, x ∈ source_columns) common
  ∧ Forall (λ x, x ∈ target_columns) common
  ∧ (common = [] ↔
     (list_to_set source_columns : gset string) ∩ list_to_set target_columns = ∅).
Proof.
  simpl. split_and!.
  - apply NoDup_enum.
  - apply Forall_forall. intros x Hx%elem_of_enum.
    apply elem_of_intersection in Hx as [Hx _]. by apply elem_of_list_to_set in Hx.
  - apply Forall_forall. intros x Hx%elem_of_enum.
    apply elem_of_intersection in Hx as [_ Hx]. by apply elem_of_list_to_set in Hx.
  - apply enum_nil.
Qed.

Lemma rectangular_set_columns df (new_columns : list string) :
  length new_columns = length (columns df) →
  rectangular df → rectangular (set_columns df new_columns).
Proof.
  intros Hlen Hrect. unfold rectangular, set_columns. simpl.
  eapply Forall_impl; [exact Hrect|]. intros r Hr. simpl in Hr. congruence.
Qed.

(** C2 (amended). For two datasets without duplicate normalized column
    names whose common columns are not empty, carry none of the names
    [merge] reserves for its indicator and are of one dtype in both
    datasets (or one of which has no rows), [rows_missing_in_target] is the
    frame over the common columns whose rows are the source rows, projected
    onto the common columns, whose value tuple equals no target row's value
    tuple, with multiplicity and in source order, and [reconcile] returns
    it; for source rows [r1, r1] and an empty target these are two entries,
    both [r1]. *)
Theorem rows_missing_in_target_is_anti_join o source_df target_df :
  let S := set_columns source_df (normalize_columns (columns source_df)) in
  let T := set_columns target_df (normalize_columns (columns target_df)) in
  let common := common_columns (diff_schema o (columns S) (columns T)) in
  rectangular source_df →
  rectangular target_df →
  NoDup (columns S) →
  NoDup (columns T) →
  common ≠ [] →
  (∀ x, x ∈ indicator_names → x ∉ common) →
  comparable S T →
  rows_missing_in_target S T common
  = Ok {| columns := common;
          dtypes := key_dtypes common S;
          rows := find_missing_rows_spec S T common |}
  ∧ (∃ c, reconcile o source_df target_df = Ok c
          ∧ missing_rows c
            = {| columns := common;
                 dtypes := key_dtypes common S;
                 rows := find_missing_rows_spec S T common |})
  ∧ (∀ r1, rows source_df = [r1; r1] → rows target_df = [] →
           find_missing_rows_spec S T common
           = [value_tuple common S r1; value_tuple common S r1]).
Proof.
  intros S T common Hrs Hrt Hns Hnt Hne Hres Hco.
  destruct (common_columns_facts o (columns S) (columns T)) as (Hnd & Hss & Hst & _).
  fold common in Hnd, Hss, Hst.
  assert (rows_missing_in_target S T common
          = Ok {| columns := common;
                  dtypes := key_dtypes common S;
                  rows := find_missing_rows_spec S T common |})
    as Hmiss.
  { apply rows_missing_in_target_anti_join; try done.
    - apply rectangular_set_columns; [apply length_map|done].
    - apply rectangular_set_columns; [apply length_map|done].
    - by apply comparable_no_coercion. }
  split_and!.
  - done.
  - destruct (duplicate_count_flagged T common Hst) as [keys Hdup].
    eexists. split.
    + unfold reconcile. fold S T common. rewrite Hmiss, Hdup. reflexivity.
    + done.
  - intros r1 Hs Ht. unfold find_missing_rows_spec. simpl. rewrite Hs, Ht. simpl.
    rewrite !filter_cons_True by (by intros ?%elem_of_nil). done.
Qed.

(** ** No common column *)

Lemma rows_missing_in_target_no_common source_df target_df :
  rows_missing_in_target source_df target_df [] = Raised no_common_columns.
Proof. reflexivity. Qed.

Lemma reconcile_no_common o source_df target_df :
  (list_to_set (normalize_columns (columns source_df)) : gset string)
    ∩ list_to_set (normalize_columns (columns target_df)) = ∅ →
  reconcile o source_df target_df = Raised no_common_columns.
Proof.
  intros Hempty. unfold reconcile. simpl.
  assert (enum o (list_to_set (normalize_columns (columns source_df))
                  ∩ list_to_set (normalize_columns (columns target_df))) = []) as ->
    by by apply enum_nil.
  by rewrite rows_missing_in_target_no_common.
Qed.

(** ** The run *)

Implicit Types (w : World cell) (st : State cell).

Ltac unfold_run :=
  unfold try_block, load_and_compare, load, compare, emit, handler,
    mbind, M_bind, mret, M_ret, raise, lift, logger, df_to_csv in *.

Lemma try_block_unfold w o :
  try_block w o initial
  = match load_and_compare w o initial with
    | (st, Ok c) => emit w c st
    | (st, Raised e) => (st, Raised e)
    end.
Proof. reflexivity. Qed.

Lemma errors_app st (l : list log_record) :
  filter (λ x, lvl x = ERROR) (log st ++ l)
  = errors st ++ filter (λ x, lvl x = ERROR) l.
Proof. unfold errors. by rewrite filter_app. Qed.

Lemma load_and_compare_quiet w o st (res : result (Comparison cell)) :
  load_and_compare w o initial = (st, res) → quiet st.
Proof.
  unfold_run. unfold quiet, errors, initial. intros Hrun.
  repeat (case_match; simplify_eq/=);
    (split; [repeat constructor|reflexivity]).
Qed.

Lemma load_and_compare_Ok w o st c :
  load_and_compare w o initial = (st, Ok c) →
  ∃ source_df target_df,
    isfile w source_path = true
    ∧ read_csv w source_path = Ok source_df
    ∧ read_csv w target_path = Ok target_df
    ∧ reconcile o source_df target_df = Ok c.
Proof.
  unfold_run. intros Hrun.
  repeat (case_match; simplify_eq/=); eexists _, _;
    (split_and!; [by apply negb_false_iff|done..]).
Qed.

(** What a completed [emit] has written. *)
Lemma emit_Ok w c st st' :
  emit w c st = (st', Ok ()) →
  files st'
  = files st
    ++ (if bool_decide (0 < missing_count c)
        then [(mismatch_records, Table (missing_rows c))] else [])
    ++ [if discrepancy_found c
        then (discrepancy_report, discrepancy_df c)
        else (no_discrepancy_report, no_discrepancy_df)]
  ∧ errors st' = errors st.
Proof.
  unfold_run. unfold errors. intros Hrun.
  repeat (case_match; simplify_eq/=);
    rewrite <- ?app_assoc, ?filter_app; simpl; rewrite ?app_nil_r; done.
Qed.

Lemma quiet_not_written st (p : path) (x : content cell) :
  quiet st → p ≠ target_path → (p, x) ∉ files st.
Proof.
  intros [Hfiles _] Hp Hin. rewrite Forall_forall in Hfiles.
  by apply Hfiles in Hin.
Qed.

Lemma written_iff st (p : path) : written p st ↔ ∃ x, (p, x) ∈ files st.
Proof.
  unfold written. rewrite list_elem_of_fmap. split.
  - intros ([p' x] & -> & Hin). by exists x.
  - intros [x Hin]. by exists (p, x).
Qed.




(** The five records of the discrepancy report: the marker of a check that
    passes, and the text of a check that fails. *)
Lemma discrepancy_data_fields o source_df target_df c :
  reconcile o source_df target_df = Ok c →
  ∃ f1 f2 f3 f4 f5,
    discrepancy_data c
    = [["Schema Mismatch"; f1]; ["Row Count Mismatch"; f2];
       ["Column Count Mismatch"; f3]; ["Source Minus Target"; f4];
       ["Duplicate Rows in Target"; f5]]
    ∧ (f1 = "No Issue" ↔ schema_mismatch (schema_diff c) = [])
    ∧ (f2 = "No Issue" ↔ source_row_count c = target_row_count c)
    ∧ (f3 = "No Issue" ↔ source_column_count c = target_column_count c)
    ∧ (f4 = "No Issue" ↔ rows (missing_rows c) = [])
    ∧ (f5 = "No Issue" ↔ duplicates c = 0)
    ∧ (f1 ≠ "No Issue" → f1 = join ", " (schema_mismatch (schema_diff c)))
    ∧ (f2 ≠ "No Issue" →
       f2 = "Source: " +:+ pretty (source_row_count c)
            +:+ ", Target: " +:+ pretty (target_row_count c))
    ∧ (f3 ≠ "No Issue" →
       f3 = "Source: " +:+ pretty (source_column_count c)
            +:+ ", Target: " +:+ pretty (target_column_count c))
    ∧ (f4 ≠ "No Issue" →
       f4 = "Rows missing in Target: " +:+ pretty (length (rows (missing_rows c))))
    ∧ (f5 ≠ "No Issue" → f5 = "Duplicate count: " +:+ pretty (duplicates c)).
Proof.
  intros Hc. apply reconcile_Ok in Hc as (Hd & _).
  eexists _, _, _, _, _. split; [reflexivity|]. split_and!.
  - destruct (schema_mismatch (schema_diff c)) as [|x l] eqn:Hl; [done|].
    simpl. split; [|done]. intros Heq. exfalso.
    apply (join_normalized_not_No_Issue (x :: l)); [done| |exact Heq].
    rewrite <- Hl, Hd. unfold schema_mismatch. simpl.
    apply Forall_app. split; apply Forall_forall; intros z Hz%elem_of_enum;
      apply elem_of_difference in Hz as [Hz _];
      apply elem_of_list_to_set in Hz;
      apply list_elem_of_fmap in Hz as (y & -> & _); by exists y.
  - unfold row_count_mismatch. case_bool_decide as Hb; simpl.
    + split; [discriminate|done].
    + split; [intros _|done].
      destruct (decide (source_row_count c = target_row_count c)); tauto.
  - unfold column_count_mismatch. case_bool_decide as Hb; simpl.
    + split; [discriminate|done].
    + split; [intros _|done].
      destruct (decide (source_column_count c = target_column_count c)); tauto.
  - unfold missing_count. case_bool_decide as Hb; simpl.
    + split; [discriminate|]. intros Hnil. rewrite Hnil in Hb. simpl in Hb. lia.
    + split; [intros _|done]. destruct (rows (missing_rows c)); [done|].
      simpl in Hb. lia.
  - unfold has_duplicates. case_bool_decide as Hb; simpl.
    + split; [discriminate|lia].
    + split; [lia|done].
  - by destruct (schema_mismatch (schema_diff c)).
  - by destruct (row_count_mismatch c).
  - by destruct (column_count_mismatch c).
  - unfold missing_count. by case_bool_decide.
  - by destruct (has_duplicates c).
Qed.



(** A run whose loading or comparison raises: the handler logs one record
    and nothing else happens. *)
Lemma aborted_run w o st (e : exn) :
  load_and_compare w o initial = (st, Raised e) →
  try_block w o initial = (st, Raised e)
  ∧ ¬ written discrepancy_report (main w o)
  ∧ ¬ written no_discrepancy_report (main w o)
  ∧ ¬ written mismatch_records (main w o)
  ∧ errors (main w o)
    = [{| lvl := ERROR;
          msg := TextExn (if bool_decide (exn_cls e = FileNotFoundError)
                          then "File Not Found: " else "Unexpected error: ") e |}].
Proof.
  intros Hlc. pose proof (load_and_compare_quiet _ _ _ _ Hlc) as Hq.
  assert (try_block w o initial = (st, Raised e)) as Htry
    by (by rewrite try_block_unfold, Hlc).
  assert (files (main w o) = files st
          ∧ errors (main w o)
            = [{| lvl := ERROR;
                  msg := TextExn (if bool_decide (exn_cls e = FileNotFoundError)
                                  then "File Not Found: "
                                  else "Unexpected error: ") e |}])
    as [Hfiles Herrors].
  { unfold main. rewrite Htry. unfold handler, logger. destruct Hq as [_ Herr].
    case_bool_decide; simpl; (split; [done|]);
      unfold errors; simpl; rewrite errors_app, Herr; done. }
  split_and!; try done;
    rewrite written_iff, Hfiles; intros [x Hx];
    by apply quiet_not_written in Hx.
Qed.

(** C8. When loading or comparison raises, the run ends with none of the
    three report files written (discrepancy report, no-discrepancy record,
    mismatch records), and with exactly one record logged at level [ERROR]:
    [File Not Found] for a [FileNotFoundError], [Unexpected error] for any
    other exception, each with the text of the exception. *)
Theorem failed_run_writes_no_report w o st (e : exn) :
  load_and_compare w o initial = (st, Raised e) →
  try_block w o initial = (st, Raised e)
  ∧ ¬ written discrepancy_report (main w o)
  ∧ ¬ written no_discrepancy_report (main w o)
  ∧ ¬ written mismatch_records (main w o)
  ∧ errors (main w o)
    = [{| lvl := ERROR;
          msg := TextExn (if bool_decide (exn_cls e = FileNotFoundError)
                          then "File Not Found: " else "Unexpected error: ") e |}].
Proof. apply aborted_run. Qed.

(** C5 (amended). When the two datasets share no normalized column name,
    the merge raises [MergeError] instead of returning rows: the comparison
    has no result, the run is aborted with none of the three report files
    written, and the one [ERROR] record is [Unexpected error]. *)
Theorem no_common_column_aborts_run w o source_df target_df :
  isfile w source_path = true →
  read_csv w source_path = Ok source_df →
  read_csv w target_path = Ok target_df →
  (isfile w target_path = false → to_csv w target_path (Table source_df) = None) →
  (list_to_set (normalize_columns (columns source_df)) : gset string)
    ∩ list_to_set (normalize_columns (columns target_df)) = ∅ →
  let S := set_columns source_df (normalize_columns (columns source_df)) in
  let T := set_columns target_df (normalize_columns (columns target_df)) in
  let common := common_columns (diff_schema o (columns S) (columns T)) in
  common = []
  ∧ rows_missing_in_target S T common = Raised no_common_columns
  ∧ reconcile o source_df target_df = Raised no_common_columns
  ∧ (∃ st, try_block w o initial = (st, Raised no_common_columns))
  ∧ ¬ written discrepancy_report (main w o)
  ∧ ¬ written no_discrepancy_report (main w o)
  ∧ ¬ written mismatch_records (main w o)
  ∧ errors (main w o)
    = [{| lvl := ERROR; msg := TextExn "Unexpected error: " no_common_columns |}].
Proof.
  intros Hfile Hs Ht Hw Hempty S T common.
  assert (common = []) as Hcommon by by apply enum_nil.
  pose proof (reconcile_no_common o _ _ Hempty) as Hrec.
  assert (∃ st, load_and_compare w o initial = (st, Raised no_common_columns))
    as [st Hlc].
  { unfold_run. rewrite Hfile, Hs. simpl.
    destruct (isfile w target_path); simpl; [|rewrite Hw by done; simpl];
      rewrite Ht; simpl; rewrite Hrec;
      repeat case_match; simplify_eq/=; by eexists. }
  destruct (aborted_run _ _ _ _ Hlc) as (Htry & ? & ? & ? & ?).
  split_and!; try done.
  - by rewrite Hcommon.
  - by exists st.
Qed.

(** ** Dependence on the iteration order of sets *)

Lemma find_missing_rows_spec_fmap source_df target_df (common : list string) :
  find_missing_rows_spec source_df target_df common
  = map (value_tuple common source_df)
        (missing_source_rows source_df target_df common).
Proof.
  unfold find_missing_rows_spec, missing_source_rows.
  induction (rows source_df) as [|r l IH]; [done|].
  simpl. rewrite !filter_cons. case_decide; simpl; by rewrite IH.
Qed.

Lemma merge_left_indicator_reserved (left_df right_df : DataFrame cell)
    (common : list string) (e : exn) :
  columns left_df = common →
  columns right_df = common →
  NoDup common →
  common ≠ [] →
  no_coercion common left_df right_df →
  indicator_pre_merge common = Some e →
  merge_left_indicator left_df right_df = Raised e.
Proof.
  intros Hl Hr Hnd Hne Hco Hres. unfold merge_left_indicator.
  cbv zeta. rewrite Hl, Hr, common_cols_all_keys by done.
  rewrite bool_decide_eq_false_2 by done.
  assert (filter (λ x : string, x ∈ common) common = common) as ->.
  { apply filter_Forall. by apply Forall_forall. }
  rewrite bool_decide_eq_true_2 by done.
  unfold maybe_coerce_merge_keys. rewrite bool_decide_eq_true_2 by done.
  rewrite (indicator_pre_merge_ext (common ++ common) common), Hres; [done|].
  intros x. rewrite elem_of_app. tauto.
Qed.

(** The three outcomes of the comparison of two datasets without duplicate
    normalized column names whose values can be compared as they are. *)
Lemma reconcile_cases o source_df target_df :
  let S := set_columns source_df (normalize_columns (columns source_df)) in
  let T := set_columns target_df (normalize_columns (columns target_df)) in
  let d := diff_schema o (columns S) (columns T) in
  let common := common_columns d in
  rectangular source_df →
  rectangular target_df →
  NoDup (columns S) →
  NoDup (columns T) →
  comparable S T →
  reconcile o source_df target_df
  = if bool_decide (common = []) then Raised no_common_columns
    else match indicator_pre_merge common with
         | Some e => Raised e
         | None =>
             Ok {| schema_diff := d;
                   source_row_count := length (rows source_df);
                   target_row_count := length (rows target_df);
                   source_column_count := length (columns S);
                   target_column_count := length (columns T);
                   missing_rows :=
                     {| columns := common;
                        dtypes := key_dtypes common S;
                        rows := find_missing_rows_spec S T common |};
                   duplicates := length (duplicate_rows_spec T common) |}
         end.
Proof.
  intros S T d common Hrs Hrt Hns Hnt Hco.
  destruct (common_columns_facts o (columns S) (columns T)) as (Hnd & Hss & Hst & _).
  fold d common in Hnd, Hss, Hst.
  assert (rectangular S) as HrS
    by (apply rectangular_set_columns; [apply length_map|done]).
  assert (rectangular T) as HrT
    by (apply rectangular_set_columns; [apply length_map|done]).
  pose proof (comparable_no_coercion S T common Hss Hst Hco) as Hnc.
  unfold reconcile. fold S T d common.
  case_bool_decide as Hne.
  { by rewrite Hne. }
  destruct (indicator_pre_merge common) as [e|] eqn:Hres.
  - unfold rows_missing_in_target. rewrite !getitem_Ok by done.
    rewrite (merge_left_indicator_reserved _ _ common e); try done.
    by apply no_coercion_selection.
  - rewrite rows_missing_in_target_anti_join; try done.
    + by rewrite duplicate_count_rows.
    + by apply indicator_pre_merge_None.
Qed.

Lemma missing_source_rows_perm source_df target_df (common common' : list string) :
  rectangular source_df → rectangular target_df →
  NoDup (columns source_df) → NoDup (columns target_df) →
  Forall (λ x, x ∈ columns source_df) common →
  Forall (λ x, x ∈ columns target_df) common →
  (∀ x, x ∈ common ↔ x ∈ common') →
  missing_source_rows source_df target_df common
  = missing_source_rows source_df target_df common'.
Proof.
  intros Hrs Hrt Hns Hnt Hss Hst Hperm. unfold missing_source_rows.
  assert (Forall (λ x, x ∈ columns source_df) common') as Hss'.
  { apply Forall_forall. intros x Hx%Hperm. by rewrite Forall_forall in Hss; apply Hss. }
  assert (Forall (λ x, x ∈ columns target_df) common') as Hst'.
  { apply Forall_forall. intros x Hx%Hperm. by rewrite Forall_forall in Hst; apply Hst. }
  unfold rectangular in Hrs, Hrt. rewrite Forall_forall in Hrs, Hrt.
  assert (Hkey : ∀ r r', r ∈ rows source_df → r' ∈ rows target_df →
    project common (columns source_df) r = project common (columns target_df) r'
    ↔ project common' (columns source_df) r
      = project common' (columns target_df) r').
  { intros r r' Hr Hr'.
    rewrite (project_eq_pointwise common _ _ r r' Hns Hnt Hss Hst (Hrs r Hr) (Hrt r' Hr')).
    rewrite (project_eq_pointwise common' _ _ r r' Hns Hnt Hss' Hst' (Hrs r Hr) (Hrt r' Hr')).
    split; intros Hall x Hx; apply Hall; by apply Hperm. }
  apply filter_ext_in. intros r Hr. apply not_iff_compat.
  rewrite !list_elem_of_fmap. unfold value_tuple.
  split; intros (r' & Heq & Hr'); exists r'; (split; [|done]);
    by apply (Hkey r r' Hr Hr').
Qed.

Lemma duplicate_rows_spec_perm target_df (common common' : list string) :
  rectangular target_df →
  (∀ x, x ∈ common ↔ x ∈ common') →
  duplicate_rows_spec target_df common = duplicate_rows_spec target_df common'.
Proof.
  intros Hrt Hperm. unfold duplicate_rows_spec.
  unfold rectangular in Hrt. rewrite Forall_forall in Hrt.
  apply filter_ext_in. intros r Hr.
  rewrite (occurrences_fmap_equiv (value_tuple common target_df)
             (value_tuple common' target_df) r (rows target_df)); [done|].
  intros r' Hr'. unfold value_tuple. apply project_agree_perm; [|done].
  by rewrite (Hrt r Hr), (Hrt r' Hr').
Qed.

Lemma truthy_Permutation {X} (l l' : list X) : l ≡ₚ l' → truthy l = truthy l'.
Proof.
  intros Hperm. destruct l, l'; try done.
  - by apply Permutation_nil_cons in Hperm.
  - symmetry in Hperm. by apply Permutation_nil_cons in Hperm.
Qed.

(** C6 (amended). The names of the Schema Mismatch field are listed in the
    iteration order of the two sets, [missing_in_target] first, and are not
    sorted. For two datasets without duplicate normalized column names
    whose values can be compared as they are (every common column is of one
    dtype in both, or one dataset has no rows), two comparisons under any
    two iteration orders either raise the same exception or both return,
    and then agree on the names missing on each side up to their order, on
    the four other fields of the report, on whether a discrepancy is found,
    on the duplicate count, and on which source rows are missing, in source
    order. *)
Theorem report_determined_up_to_set_order o1 o2 source_df target_df :
  rectangular source_df →
  rectangular target_df →
  NoDup (normalize_columns (columns source_df)) →
  NoDup (normalize_columns (columns target_df)) →
  let S := set_columns source_df (normalize_columns (columns source_df)) in
  let T := set_columns target_df (normalize_columns (columns target_df)) in
  comparable S T →
  match reconcile o1 source_df target_df, reconcile o2 source_df target_df with
  | Ok c1, Ok c2 =>
      missing_in_target (schema_diff c1) ≡ₚ missing_in_target (schema_diff c2)
      ∧ missing_in_source (schema_diff c1) ≡ₚ missing_in_source (schema_diff c2)
      ∧ common_columns (schema_diff c1) ≡ₚ common_columns (schema_diff c2)
      ∧ discrepancy_data c1 !! 0
        = Some ["Schema Mismatch";
                if truthy (schema_mismatch (schema_diff c1))
                then join ", " (missing_in_target (schema_diff c1)
                                ++ missing_in_source (schema_diff c1))
                else "No Issue"]
      ∧ drop 1 (discrepancy_data c1) = drop 1 (discrepancy_data c2)
      ∧ discrepancy_found c1 = discrepancy_found c2
      ∧ duplicates c1 = duplicates c2
      ∧ ∃ missing,
          missing `sublist_of` rows source_df
          ∧ rows (missing_rows c1)
            = map (value_tuple (common_columns (schema_diff c1)) S) missing
          ∧ rows (missing_rows c2)
            = map (value_tuple (common_columns (schema_diff c2)) S) missing
  | Raised e1, Raised e2 => e1 = e2
  | _, _ => False
  end.
Proof.
  intros Hrs Hrt Hns Hnt S T Hco.
  rewrite !reconcile_cases by done. fold S T.
  set (d1 := diff_schema o1 (columns S) (columns T)).
  set (d2 := diff_schema o2 (columns S) (columns T)).
  destruct (common_columns_facts o1 (columns S) (columns T)) as (_ & Hss & Hst & Hnil1).
  destruct (common_columns_facts o2 (columns S) (columns T)) as (_ & _ & _ & Hnil2).
  fold d1 in Hss, Hst, Hnil1. fold d2 in Hnil2.
  assert (Hperm : ∀ x, x ∈ common_columns d1 ↔ x ∈ common_columns d2)
    by (intros x; unfold d1, d2; simpl; by rewrite !elem_of_enum).
  assert (∀ s : gset string, enum o1 s ≡ₚ enum o2 s) as Henum
    by (intros s; by rewrite !enum_perm).
  assert (rectangular S) as HrS
    by (apply rectangular_set_columns; [apply length_map|done]).
  assert (rectangular T) as HrT
    by (apply rectangular_set_columns; [apply length_map|done]).
  rewrite (bool_decide_ext (common_columns d2 = []) (common_columns d1 = []))
    by (by rewrite Hnil1, Hnil2).
  rewrite (indicator_pre_merge_ext (common_columns d2) (common_columns d1))
    by (intros x; symmetry; apply Hperm).
  case_bool_decide; [done|].
  destruct (indicator_pre_merge (common_columns d1)); [done|].
  assert (Hdup : length (duplicate_rows_spec T (common_columns d1))
                 = length (duplicate_rows_spec T (common_columns d2)))
    by (by rewrite (duplicate_rows_spec_perm T _ _ HrT Hperm)).
  assert (Hmiss : missing_source_rows S T (common_columns d1)
                  = missing_source_rows S T (common_columns d2))
    by (by apply missing_source_rows_perm).
  assert (Htruthy : truthy (schema_mismatch d1) = truthy (schema_mismatch d2)).
  { apply truthy_Permutation. unfold schema_mismatch, d1, d2. simpl.
    apply Permutation_app; apply Henum. }
  split_and!.
  - apply Henum.
  - apply Henum.
  - apply Henum.
  - reflexivity.
  - unfold discrepancy_data, row_count_mismatch, column_count_mismatch,
      has_duplicates, missing_count.
    cbn [drop schema_diff source_row_count target_row_count source_column_count
         target_column_count missing_rows duplicates rows].
    rewrite !find_missing_rows_spec_fmap, !length_map, Hmiss, Hdup. done.
  - unfold discrepancy_found, row_count_mismatch, column_count_mismatch,
      has_duplicates, missing_count.
    cbn [schema_diff source_row_count target_row_count source_column_count
         target_column_count missing_rows duplicates rows].
    rewrite !find_missing_rows_spec_fmap, !length_map, Hmiss, Hdup, Htruthy. done.
  - done.
  - exists (missing_source_rows S T (common_columns d1)). split_and!.
    + apply sublist_filter.
    + apply find_missing_rows_spec_fmap.
    + cbn [missing_rows rows schema_diff]. rewrite Hmiss.
      apply find_missing_rows_spec_fmap.
Qed.

End Properties.

(** ** Headers written in ASCII *)

(** On headers written in ASCII, [str.lower] is the ASCII case mapping:
    what a run does is the same for every [Python]. *)
Section Ascii_headers.
Context (P P' : Python) {cell : Type} `{EqDecision cell} `{!Dtypes cell}
  `{!Pandas cell}.

Lemma normalize_columns_any (cols : list string) :
  Forall is_ascii cols →
  @normalize_columns P cols = @normalize_columns P' cols.
Proof.
  intros Hcols. unfold normalize_columns.
  apply Forall_fmap_ext. eapply Forall_impl; [exact Hcols|].
  intros c Hc. simpl. by rewrite !normalize_ascii.
Qed.

Lemma reconcile_any (o : SetOrder) (source_df target_df : DataFrame cell) :
  Forall is_ascii (columns source_df) →
  Forall is_ascii (columns target_df) →
  @reconcile P cell _ _ _ o source_df target_df
  = @reconcile P' cell _ _ _ o source_df target_df.
Proof.
  intros Hs Ht. unfold reconcile.
  by rewrite (normalize_columns_any _ Hs), (normalize_columns_any _ Ht).
Qed.

Lemma main_any (w : World cell) (o : SetOrder) :
  (∀ p df, read_csv w p = Ok df → Forall is_ascii (columns df)) →
  @main P cell _ _ _ w o = @main P' cell _ _ _ w o.
Proof.
  intros Hascii.
  assert (@load_and_compare P cell _ _ _ w o initial
          = @load_and_compare P' cell _ _ _ w o initial) as Hlc.
  { unfold load_and_compare, load, compare,
      mbind, M_bind, mret, M_ret, raise, lift, logger, df_to_csv.
    destruct (isfile w source_path); simpl; [|done].
    destruct (read_csv w source_path) as [source_df|] eqn:Hs; simpl; [|done].
    assert (∀ st,
      match read_csv w target_path with
      | Ok target_df =>
          @compare P cell _ _ _ o source_df target_df st
          = @compare P' cell _ _ _ o source_df target_df st
      | Raised _ => True
      end) as Hcmp.
    { intros st. destruct (read_csv w target_path) as [target_df|] eqn:Ht; [|done].
      unfold compare.
      rewrite (normalize_columns_any (columns source_df)) by by eapply Hascii.
      rewrite (normalize_columns_any (columns target_df)) by by eapply Hascii.
      rewrite reconcile_any by by eapply Hascii. done. }
    unfold compare, mbind, M_bind, mret, M_ret, lift, logger in Hcmp.
    destruct (isfile w target_path); simpl.
    - destruct (read_csv w target_path) as [target_df|]; simpl; [|done].
      apply Hcmp.
    - destruct (to_csv w target_path (Table source_df)); simpl; [done|].
      destruct (read_csv w target_path) as [target_df|]; simpl; [|done].
      apply Hcmp. }
  unfold main. rewrite !try_block_unfold, Hlc. done.
Qed.

End Ascii_headers.

(** * Concrete runs *)

Ltac by_computation := apply (bool_decide_unpack _); vm_compute; exact I.

Section Concrete.
Existing Instance ascii_python.
Existing Instance csv_dtypes.
Existing Instance csv_pandas.

Lemma normalize_examples :
  normalize "First Name" = "first_name"
  ∧ normalize "first_name" = "first_name"
  ∧ normalize " Merge" = "_merge"
  ∧ normalize_spec "First Name" = "first_name"
  ∧ normalize_spec "a-B c" = "a-b_c".
Proof. repeat split. Qed.

(** The scenario of the specification: three rows against the same three
    rows with one more column and a copy of the first row. *)
Lemma scenario_extra_column_and_duplicate :
  (files (main (ex_world ex_source ex_target) order_fwd)).*2
  = [Records ["Validation"; "Discrepancy"]
       [["Schema Mismatch"; "extra"];
        ["Row Count Mismatch"; "Source: 3, Target: 4"];
        ["Column Count Mismatch"; "Source: 2, Target: 3"];
        ["Source Minus Target"; "No Issue"];
        ["Duplicate Rows in Target"; "Duplicate count: 2"]]].
Proof. vm_compute. reflexivity. Qed.

Lemma scenario_identical :
  files (main (ex_world ex_source ex_source) order_fwd)
  = [(no_discrepancy_report,
      Records ["Validation"; "Message"]
        [["No Discrepancy"; "No discrepancies found. Data is consistent."]])].
Proof. vm_compute. reflexivity. Qed.

(** The headers of the examples are written in ASCII, so what is computed
    here holds for every [Python]: for instance the scenario above. *)
Lemma scenario_for_every_python (P : Python) :
  (files (@main P value _ _ _ (ex_world ex_source ex_target) order_fwd)).*2
  = [Records ["Validation"; "Discrepancy"]
       [["Schema Mismatch"; "extra"];
        ["Row Count Mismatch"; "Source: 3, Target: 4"];
        ["Column Count Mismatch"; "Source: 2, Target: 3"];
        ["Source Minus Target"; "No Issue"];
        ["Duplicate Rows in Target"; "Duplicate count: 2"]]].
Proof.
  rewrite (main_any P ascii_python).
  - exact scenario_extra_column_and_duplicate.
  - intros p df Hp. destruct p; injection Hp as <-; by_computation.
Qed.

(** The writes come after the comparison, one after the other: a run in
    which the write of the discrepancy report raises has already written the
    mismatch records. *)
Lemma failed_report_write_keeps_mismatch_records :
  (files (main (ex_world_report_fails ex_twice ex_empty) order_fwd)).*1
  = [mismatch_records]
  ∧ errors (main (ex_world_report_fails ex_twice ex_empty) order_fwd)
    = [{| lvl := ERROR;
          msg := TextExn "Unexpected error: " (Raise OtherError "Permission denied") |}].
Proof. split; vm_compute; reflexivity. Qed.

(** A common column of integers in the source and of text in the target:
    [merge] raises, nothing is written, and the one [ERROR] record holds
    the text of the exception. *)
Lemma integer_id_against_text_id :
  reconcile order_fwd ex_int_id ex_text_id
  = Raised (Raise ValueError
      ("You are trying to merge on int64 and object columns for key 'id'. "
       +:+ "If you wish to proceed you should use pd.concat"))
  ∧ files (main (ex_world ex_int_id ex_text_id) order_fwd) = []
  ∧ errors (main (ex_world ex_int_id ex_text_id) order_fwd)
    = [{| lvl := ERROR;
          msg := TextExn "Unexpected error: "
                   (incompatible_keys int64 object "id") |}].
Proof. split_and!; vm_compute; reflexivity. Qed.

(** A common column of unsigned integers in the source and of signed
    integers in the target: the keys are compared as [float64], so that
    2^63 finds 2^63 - 1 in the target; no row is reported and the
    no-discrepancy report is written, although the second source row
    equals no target row. *)
Lemma unsigned_id_against_signed_id :
  let S := set_columns ex_unsigned_id (normalize_columns (columns ex_unsigned_id)) in
  let T := set_columns ex_signed_id (normalize_columns (columns ex_signed_id)) in
  (files (main (ex_world ex_unsigned_id ex_signed_id) order_fwd)).*1
  = [no_discrepancy_report]
  ∧ (∃ c, reconcile order_fwd ex_unsigned_id ex_signed_id = Ok c
          ∧ rows (missing_rows c) = [])
  ∧ find_missing_rows_spec S T ["id"] = [[Int 9223372036854775808]]
  ∧ ¬ comparable S T.
Proof.
  cbv zeta. split_and!.
  - vm_compute. reflexivity.
  - eexists. split; vm_compute; reflexivity.
  - vm_compute. reflexivity.
  - by_computation.
Qed.

(** Two common columns that cannot be compared: the exception names the
    first of them in the iteration order of the set of common columns, so
    two iteration orders give two exceptions. *)
Lemma merge_error_depends_on_set_order :
  rectangular ex_int_text
  ∧ rectangular ex_text_int
  ∧ NoDup (normalize_columns (columns ex_int_text))
  ∧ NoDup (normalize_columns (columns ex_text_int))
  ∧ reconcile order_fwd ex_int_text ex_text_int
    = Raised (incompatible_keys int64 object "a")
  ∧ reconcile order_rev ex_int_text ex_text_int
    = Raised (incompatible_keys object int64 "b")
  ∧ reconcile order_fwd ex_int_text ex_text_int
    ≠ reconcile order_rev ex_int_text ex_text_int.
Proof.
  split_and!.
  - by_computation.
  - by_computation.
  - by_computation.
  - by_computation.
  - vm_compute. reflexivity.
  - vm_compute. reflexivity.
  - vm_compute. discriminate.
Qed.

(** ** Instances of the theorems *)


Lemma rows_missing_in_target_is_anti_join_witness :
  let S := set_columns ex_twice (normalize_columns (columns ex_twice)) in
  let T := set_columns ex_empty (normalize_columns (columns ex_empty)) in
  let common := common_columns (diff_schema order_fwd (columns S) (columns T)) in
  rectangular ex_twice
  ∧ rectangular ex_empty
  ∧ NoDup (columns S)
  ∧ NoDup (columns T)
  ∧ common ≠ []
  ∧ comparable S T
  ∧ rows_missing_in_target S T common
    = Ok {| columns := common;
            dtypes := key_dtypes common S;
            rows := find_missing_rows_spec S T common |}
  ∧ find_missing_rows_spec S T common = [[Int 7; Int 70]; [Int 7; Int 70]].
Proof.
  intros S T common.
  assert (rectangular ex_twice) as H1 by by_computation.
  assert (rectangular ex_empty) as H2 by by_computation.
  assert (NoDup (columns S)) as H3 by by_computation.
  assert (NoDup (columns T)) as H4 by by_computation.
  assert (common ≠ []) as H5 by (vm_compute; discriminate).
  assert (∀ x, x ∈ indicator_names → x ∉ common) as H6
    by (apply Forall_forall; by_computation).
  assert (comparable S T) as H7 by by_computation.
  split_and!; [exact H1|exact H2|exact H3|exact H4|exact H5|exact H7| |];
    destruct (rows_missing_in_target_is_anti_join order_fwd ex_twice ex_empty
                H1 H2 H3 H4 H5 H6 H7) as (Hrows & _ & Hex).
  - exact Hrows.
  - etransitivity; [apply (Hex [Int 7; Int 70]); reflexivity|].
    vm_compute. reflexivity.
Defined.

Lemma duplicate_count_counts_every_member_witness :
  rectangular ex_dups
  ∧ duplicate_count ex_dups ["id"; "first_name"] = Ok 2
  ∧ duplicate_rows_spec ex_dups ["id"; "first_name"]
    = [[Int 1; Int 10]; [Int 1; Int 10]].
Proof.
  assert (rectangular ex_dups) as H1 by by_computation.
  split; [exact H1|].
  destruct (duplicate_count_counts_every_member ex_dups ["id"; "first_name"] H1)
    as (_ & _ & _ & _ & Hex).
  - discriminate.
  - by_computation.
  - apply (Hex [Int 1; Int 10] [Int 2; Int 20]); [reflexivity|vm_compute; discriminate].
Defined.

Lemma no_common_column_aborts_run_witness :
  reconcile order_fwd ex_source ex_other = Raised no_common_columns
  ∧ ¬ written discrepancy_report (main (ex_world ex_source ex_other) order_fwd)
  ∧ ¬ written no_discrepancy_report (main (ex_world ex_source ex_other) order_fwd).
Proof.
  destruct (no_common_column_aborts_run (ex_world ex_source ex_other) order_fwd
              ex_source ex_other) as (_ & _ & Hrec & _ & Hd & Hn & _).
  - reflexivity.
  - reflexivity.
  - reflexivity.
  - discriminate.
  - vm_compute. reflexivity.
  - split_and!; assumption.
Defined.

Lemma report_determined_up_to_set_order_witness :
  rectangular ex_wide ∧ rectangular ex_narrow
  ∧ comparable (set_columns ex_wide (normalize_columns (columns ex_wide)))
               (set_columns ex_narrow (normalize_columns (columns ex_narrow)))
  ∧ match reconcile order_fwd ex_wide ex_narrow,
          reconcile order_rev ex_wide ex_narrow with
    | Ok c1, Ok c2 =>
        drop 1 (discrepancy_data c1) = drop 1 (discrepancy_data c2)
        ∧ discrepancy_found c1 = discrepancy_found c2
    | _, _ => False
    end.
Proof.
  assert (rectangular ex_wide) as H1 by by_computation.
  assert (rectangular ex_narrow) as H2 by by_computation.
  assert (NoDup (normalize_columns (columns ex_wide))) as H3 by by_computation.
  assert (NoDup (normalize_columns (columns ex_narrow))) as H4 by by_computation.
  assert (comparable (set_columns ex_wide (normalize_columns (columns ex_wide)))
            (set_columns ex_narrow (normalize_columns (columns ex_narrow)))) as H5
    by by_computation.
  split_and!; [exact H1|exact H2|exact H5|].
  pose proof (report_determined_up_to_set_order order_fwd order_rev
                ex_wide ex_narrow H1 H2 H3 H4 H5) as Hdet.
  destruct (reconcile order_fwd ex_wide ex_narrow) as [c1|e1] eqn:E1,
    (reconcile order_rev ex_wide ex_narrow) as [c2|e2]; try contradiction.
  - destruct Hdet as (_ & _ & _ & _ & Hdrop & Hfound & _). by split.
  - vm_compute in E1. discriminate.
Defined.

Lemma failed_run_writes_no_report_witness :
  load_and_compare (ex_no_source : World value) order_fwd initial
  = (initial, Raised (Raise FileNotFoundError
       "Source file not found at /Users/jobazariahraj/Downloads/Entity_DataSet.csv"))
  ∧ files (main (ex_no_source : World value) order_fwd) = []
  ∧ ¬ written discrepancy_report (main (ex_no_source : World value) order_fwd).
Proof.
  assert (load_and_compare (ex_no_source : World value) order_fwd initial
    = (initial, Raised (Raise FileNotFoundError
         "Source file not found at /Users/jobazariahraj/Downloads/Entity_DataSet.csv")))
    as Hlc by reflexivity.
  split; [exact Hlc|]. split; [reflexivity|].
  by destruct (failed_run_writes_no_report _ _ _ _ Hlc) as (_ & ? & _).
Defined.

Lemma duplicate_count_never_one_witness :
  ∃ n, duplicate_count ex_target ["id"; "first_name"] = Ok n ∧ n ≠ 1.
Proof.
  destruct (duplicate_count_never_one ex_target ["id"; "first_name"])
    as (n & Hn & Hne & _).
  - by_computation.
  - by exists n.
Defined.

Lemma column_count_mismatch_implies_schema_mismatch_witness :
  NoDup (normalize_columns (columns ex_source))
  ∧ NoDup (normalize_columns (columns ex_target))
  ∧ schema_mismatch (diff_schema order_fwd (normalize_columns (columns ex_source))
                       (normalize_columns (columns ex_target))) ≠ [].
Proof.
  assert (NoDup (normalize_columns (columns ex_source))) as H1 by by_computation.
  assert (NoDup (normalize_columns (columns ex_target))) as H2 by by_computation.
  split_and!; [exact H1|exact H2|].
  destruct (column_count_mismatch_implies_schema_mismatch order_fwd
              ex_source ex_target H1 H2) as [Hlen _].
  apply Hlen. vm_compute. lia.
Defined.

(** ** Where the specification and the program part *)

(** A common column named [_merge] (here from the headers [" merge"] and
    ["_Merge"]): the datasets are well formed, their common columns are not
    empty and of one dtype, and the merge raises instead of returning the
    anti-join. *)
Lemma rows_missing_in_target_reserved_name :
  let S := set_columns cx_reserved_source
             (normalize_columns (columns cx_reserved_source)) in
  let T := set_columns cx_reserved_target
             (normalize_columns (columns cx_reserved_target)) in
  let common := common_columns (diff_schema order_fwd (columns S) (columns T)) in
  rectangular cx_reserved_source
  ∧ rectangular cx_reserved_target
  ∧ NoDup (columns S)
  ∧ NoDup (columns T)
  ∧ comparable S T
  ∧ common = ["_merge"]
  ∧ rows_missing_in_target S T common = Raised reserved_indicator_name
  ∧ rows_missing_in_target S T common
    ≠ Ok {| columns := common;
            dtypes := key_dtypes common S;
            rows := find_missing_rows_spec S T common |}.
Proof.
  cbv zeta. split_and!.
  - by_computation.
  - by_computation.
  - by_computation.
  - by_computation.
  - by_computation.
  - vm_compute. reflexivity.
  - vm_compute. reflexivity.
  - vm_compute. discriminate.
Qed.

(** No common column: [rows_missing_in_target] returns nothing, the run does
    not complete and no report is written. *)
Lemma no_common_column_no_report :
  let S := set_columns ex_source (normalize_columns (columns ex_source)) in
  let T := set_columns ex_other (normalize_columns (columns ex_other)) in
  let common := common_columns (diff_schema order_fwd (columns S) (columns T)) in
  common = []
  ∧ (∀ missing, rows_missing_in_target S T common ≠ Ok missing)
  ∧ ¬ succeeds (ex_world ex_source ex_other) order_fwd
  ∧ files (main (ex_world ex_source ex_other) order_fwd) = [].
Proof.
  cbv zeta. split_and!.
  - vm_compute. reflexivity.
  - intros missing. vm_compute. discriminate.
  - intros [st Hst]. vm_compute in Hst. discriminate.
  - vm_compute. reflexivity.
Qed.

(** One pair of datasets, two iteration orders: the two reports differ in
    the Schema Mismatch field, and the names of one of them are not in
    lexicographic order. *)
Lemma schema_mismatch_text_depends_on_set_order :
  (files (main (ex_world ex_wide ex_narrow) order_fwd)).*2
  = [Records ["Validation"; "Discrepancy"]
       [["Schema Mismatch"; "a, b"];
        ["Row Count Mismatch"; "No Issue"];
        ["Column Count Mismatch"; "Source: 3, Target: 1"];
        ["Source Minus Target"; "No Issue"];
        ["Duplicate Rows in Target"; "No Issue"]]]
  ∧ (files (main (ex_world ex_wide ex_narrow) order_rev)).*2
    = [Records ["Validation"; "Discrepancy"]
         [["Schema Mismatch"; "b, a"];
          ["Row Count Mismatch"; "No Issue"];
          ["Column Count Mismatch"; "Source: 3, Target: 1"];
          ["Source Minus Target"; "No Issue"];
          ["Duplicate Rows in Target"; "No Issue"]]]
  ∧ files (main (ex_world ex_wide ex_narrow) order_fwd)
    ≠ files (main (ex_world ex_wide ex_narrow) order_rev)
  ∧ ¬ Sorted (λ a b, String.leb a b = true)
        (schema_mismatch
           (diff_schema order_rev (normalize_columns (columns ex_wide))
              (normalize_columns (columns ex_narrow)))).
Proof.
  split_and!.
  - vm_compute. reflexivity.
  - vm_compute. reflexivity.
  - vm_compute. discriminate.
  - intros Hsorted. vm_compute in Hsorted.
    inversion Hsorted as [|? ? _ Hhd]. inversion Hhd. discriminate.
Qed.

End Concrete.

(** * Further properties of the script *)

(** ** Selections with repeated labels *)

Section Selections.
Context {A : Type}.
Implicit Types (cols labels : list string).

Lemma length_under (x : string) cols (r : list A) :
  length r = length cols → length (under x cols r) = occurrences x cols.
Proof.
  revert r. induction cols as [|y cols IH]; intros r Hlen.
  { by destruct r. }
  destruct r as [|a r]; [done|]. rewrite occurrences_cons.
  destruct (decide (y = x)) as [->|Hne].
  - rewrite under_cons_eq. simpl. rewrite IH by (by simplify_eq/=). done.
  - rewrite under_cons_ne by done. rewrite IH by (by simplify_eq/=). done.
Qed.

Lemma project_length_once labels cols (r : list A) :
  carried_once labels cols → length r = length cols →
  length (project labels cols r) = length labels.
Proof.
  intros Honce Hlen. induction Honce as [|x labels Hx Honce IH]; [done|].
  rewrite project_cons, length_app, IH, length_under, Hx by done. done.
Qed.

End Selections.

Lemma under_self_replicate (x : string) (cols : list string) :
  under x cols cols = replicate (occurrences x cols) x.
Proof.
  induction cols as [|y cols IH]; [done|]. rewrite occurrences_cons.
  destruct (decide (y = x)) as [->|Hne].
  - by rewrite under_cons_eq, IH.
  - by rewrite under_cons_ne, IH.
Qed.

Lemma project_self_once (labels cols : list string) :
  carried_once labels cols → project labels cols cols = labels.
Proof.
  intros Honce. induction Honce as [|x labels Hx Honce IH]; [done|].
  by rewrite project_cons, under_self_replicate, Hx, IH.
Qed.

Lemma elem_of_project_self (labels cols : list string) (x : string) :
  Forall (λ y, y ∈ cols) labels →
  x ∈ project labels cols cols ↔ x ∈ labels.
Proof.
  intros Hsub. induction Hsub as [|y labels Hy Hsub IH].
  { split; by intros ?%elem_of_nil. }
  rewrite project_cons, elem_of_app, elem_of_cons, IH, under_self_replicate,
    elem_of_replicate.
  apply occurrences_pos in Hy. split; [intros [[??]|?]; auto|].
  intros [->|?]; [left; split; [done|lia]|by right].
Qed.

(** A selection by distinct labels has distinct labels exactly when each of
    them is carried by one column. *)
Lemma NoDup_project_self (labels cols : list string) :
  NoDup labels →
  Forall (λ y, y ∈ cols) labels →
  NoDup (project labels cols cols) ↔ carried_once labels cols.
Proof.
  intros Hnd Hsub. split; [|intros Honce; by rewrite project_self_once].
  induction Hsub as [|y labels Hy Hsub IH]; intros Hp; [constructor|].
  apply NoDup_cons in Hnd as [Hny Hnd].
  rewrite project_cons, under_self_replicate in Hp.
  apply NoDup_app in Hp as (Hrep & _ & Hrest).
  constructor; [|by apply IH].
  apply occurrences_pos in Hy.
  destruct (occurrences y cols) as [|[|n]]; [lia|done|].
  simpl in Hrep. apply NoDup_cons in Hrep as [Hin _].
  exfalso. apply Hin. by left.
Qed.

Lemma project_self_replicate (labels cols : list string) :
  project labels cols cols = labels ≫= (λ x, replicate (occurrences x cols) x).
Proof.
  unfold project. apply Forall_bind_ext, Forall_forall.
  intros x _. apply under_self_replicate.
Qed.

(** ** When the comparison returns and when it raises *)

Section Outcome.
Context `{!Python} {cell : Type} `{EqDecision cell} `{!Dtypes cell} `{!Pandas cell}.
Implicit Types (source_df target_df df : DataFrame cell) (o : SetOrder).

Lemma getitem_subset df (labels : list string) :
  Forall (λ x, x ∈ columns df) labels →
  getitem df labels
  = Ok {| columns := project labels (columns df) (columns df);
          dtypes := key_dtypes labels df;
          rows := map (value_tuple labels df) (rows df) |}.
Proof. intros Hsub. unfold getitem. by rewrite bool_decide_eq_true_2. Qed.

(** The labels two selections by the distinct labels [common] share are
    [common], in this order. *)
Lemma common_cols_selections (cs ct common : list string) :
  NoDup common →
  Forall (λ x, x ∈ cs) common →
  Forall (λ x, x ∈ ct) common →
  filter (λ x, x ∈ project common ct ct) (unique (project common cs cs))
  = common.
Proof.
  intros Hnd Hss Hst. rewrite (project_self_replicate common cs).
  rewrite unique_repeated; [|done|].
  - apply filter_Forall, Forall_forall. intros x Hx.
    by apply elem_of_project_self.
  - eapply Forall_impl; [exact Hss|]. intros x Hx. by apply occurrences_pos.
Qed.

Lemma merge_columns_not_unique (left_df right_df : DataFrame cell)
    (cs ct common : list string) :
  columns left_df = project common cs cs →
  columns right_df = project common ct ct →
  NoDup common →
  Forall (λ x, x ∈ cs) common →
  Forall (λ x, x ∈ ct) common →
  common ≠ [] →
  ¬ (carried_once common cs ∧ carried_once common ct) →
  merge_left_indicator left_df right_df = Raised (columns_not_unique common).
Proof.
  intros Hl Hr Hnd Hss Hst Hne Hnot. unfold merge_left_indicator.
  cbv zeta. rewrite Hl, Hr, common_cols_selections by done.
  rewrite bool_decide_eq_false_2 by done.
  rewrite (filter_Forall (λ x, x ∈ common) (project common cs cs)).
  2:{ apply Forall_forall. intros x Hx. by apply elem_of_project_self in Hx. }
  rewrite (filter_Forall (λ x, x ∈ common) (project common ct ct)).
  2:{ apply Forall_forall. intros x Hx. by apply elem_of_project_self in Hx. }
  rewrite bool_decide_eq_false_2; [done|].
  rewrite !NoDup_project_self by done. exact Hnot.
Qed.

(** The outcome of lines 65-66 for any list of distinct labels that both
    frames carry, when the keys are compared as they are. *)
Lemma rows_missing_in_target_outcome source_df target_df (common : list string) :
  rectangular source_df →
  rectangular target_df →
  NoDup common →
  Forall (λ x, x ∈ columns source_df) common →
  Forall (λ x, x ∈ columns target_df) common →
  no_coercion common source_df target_df →
  rows_missing_in_target source_df target_df common
  = if bool_decide (common = []) then Raised no_common_columns
    else if bool_decide (carried_once common (columns source_df)
                         ∧ carried_once common (columns target_df))
    then match indicator_pre_merge common with
         | Some e => Raised e
         | None =>
             Ok {| columns := common;
                   dtypes := key_dtypes common source_df;
                   rows := find_missing_rows_spec source_df target_df common |}
         end
    else Raised (columns_not_unique common).
Proof.
  intros Hrs Hrt Hnd Hss Hst Hco.
  case_bool_decide as Hne; [by rewrite Hne|].
  unfold rows_missing_in_target. rewrite !getitem_subset by done.
  case_bool_decide as Honce.
  - destruct Honce as [Hos Hot]. rewrite !project_self_once by done.
    assert (Forall (λ r : list cell, length r = length common)
              (map (value_tuple common source_df) (rows source_df))) as Hls.
    { apply Forall_fmap. eapply Forall_impl; [exact Hrs|].
      intros r Hlen. by apply project_length_once. }
    assert (Forall (λ r : list cell, length r = length common)
              (map (value_tuple common target_df) (rows target_df))) as Hlt.
    { apply Forall_fmap. eapply Forall_impl; [exact Hrt|].
      intros r Hlen. by apply project_length_once. }
    pose proof (no_coercion_selection source_df target_df common
                  (columns source_df) (columns target_df) Hco) as Hsel.
    destruct (indicator_pre_merge common) as [e|] eqn:Hres.
    + by rewrite (merge_left_indicator_reserved _ _ common e).
    + edestruct (merge_left_indicator_all_keys
        {| columns := common;
           dtypes := key_dtypes common source_df;
           rows := map (value_tuple common source_df) (rows source_df) |}
        {| columns := common;
           dtypes := key_dtypes common target_df;
           rows := map (value_tuple common target_df) (rows target_df) |}
        common) as (m & -> & ->); try done.
      by apply indicator_pre_merge_None.
  - by rewrite (merge_columns_not_unique _ _ (columns source_df)
                  (columns target_df) common).
Qed.

(** The three ways in which the comparison of values that can be compared
    as they are raises, and what it returns. *)
Lemma reconcile_three_cases o source_df target_df :
  rectangular source_df →
  rectangular target_df →
  let S := set_columns source_df (normalize_columns (columns source_df)) in
  let T := set_columns target_df (normalize_columns (columns target_df)) in
  let d := diff_schema o (columns S) (columns T) in
  let common := common_columns d in
  comparable S T →
  reconcile o source_df target_df
  = if bool_decide (common = []) then Raised no_common_columns
    else if bool_decide (carried_once common (columns S)
                         ∧ carried_once common (columns T))
    then match indicator_pre_merge common with
         | Some e => Raised e
         | None =>
             Ok {| schema_diff := d;
                   source_row_count := length (rows source_df);
                   target_row_count := length (rows target_df);
                   source_column_count := length (columns source_df);
                   target_column_count := length (columns target_df);
                   missing_rows :=
                     {| columns := common;
                        dtypes := key_dtypes common S;
                        rows := find_missing_rows_spec S T common |};
                   duplicates := length (duplicate_rows_spec T common) |}
         end
    else Raised (columns_not_unique common).
Proof.
  intros Hrs Hrt S T d common Hco.
  destruct (common_columns_facts o (columns S) (columns T)) as (Hnd & Hss & Hst & _).
  fold d common in Hnd, Hss, Hst.
  assert (rectangular S) as HrS
    by (apply rectangular_set_columns; [apply length_map|done]).
  assert (rectangular T) as HrT
    by (apply rectangular_set_columns; [apply length_map|done]).
  pose proof (comparable_no_coercion S T common Hss Hst Hco) as Hnc.
  unfold reconcile. fold S T d common.
  rewrite rows_missing_in_target_outcome by done.
  case_bool_decide as Hne; [done|].
  case_bool_decide as Honce; [|done].
  destruct (indicator_pre_merge common) as [e|]; [done|].
  rewrite duplicate_count_rows by done.
  unfold S, T, normalize_columns. simpl. by rewrite !length_map.
Qed.

(** X1. The comparison of two rectangular datasets raises [MergeError]
    when they share no normalized column name (no common columns), and,
    when they share one, when a common name is carried by more than one
    column of a dataset (columns not unique, with the common names).
    Otherwise, when the common columns are of one dtype in both datasets
    (or one dataset has no rows), it raises [ValueError] when a common name
    is reserved for the indicator, and else returns the schema difference,
    the four counts, the anti-join of the rows and the number of duplicated
    target rows. *)
Theorem reconcile_outcome o source_df target_df :
  rectangular source_df →
  rectangular target_df →
  let S := set_columns source_df (normalize_columns (columns source_df)) in
  let T := set_columns target_df (normalize_columns (columns target_df)) in
  let d := diff_schema o (columns S) (columns T) in
  let common := common_columns d in
  (common = [] → reconcile o source_df target_df = Raised no_common_columns)
  ∧ (common ≠ [] →
     ¬ (carried_once common (columns S) ∧ carried_once common (columns T)) →
     reconcile o source_df target_df = Raised (columns_not_unique common))
  ∧ (common ≠ [] →
     carried_once common (columns S) →
     carried_once common (columns T) →
     comparable S T →
     reconcile o source_df target_df
     = match indicator_pre_merge common with
       | Some e => Raised e
       | None =>
           Ok {| schema_diff := d;
                 source_row_count := length (rows source_df);
                 target_row_count := length (rows target_df);
                 source_column_count := length (columns source_df);
                 target_column_count := length (columns target_df);
                 missing_rows :=
                   {| columns := common;
                      dtypes := key_dtypes common S;
                      rows := find_missing_rows_spec S T common |};
                 duplicates := length (duplicate_rows_spec T common) |}
       end).
Proof.
  intros Hrs Hrt S T d common.
  destruct (common_columns_facts o (columns S) (columns T)) as (Hnd & Hss & Hst & _).
  fold d common in Hnd, Hss, Hst.
  split_and!.
  - intros Hnil. unfold reconcile. fold S T d common.
    by rewrite Hnil, rows_missing_in_target_no_common.
  - intros Hne Hnot. unfold reconcile. fold S T d common.
    unfold rows_missing_in_target. rewrite !getitem_subset by done.
    by rewrite (merge_columns_not_unique _ _ (columns S) (columns T) common).
  - intros Hne Hos Hot Hco.
    rewrite reconcile_three_cases by done. fold S T d common.
    rewrite bool_decide_eq_false_2 by done.
    by rewrite bool_decide_eq_true_2 by done.
Qed.

End Outcome.

(** ** Distinct keys *)

Section Distinct.
Context {K : Type} `{EqDecision K}.
Implicit Types (k : K) (keys : list K).

Lemma NoDup_occurrences keys :
  NoDup keys ↔ ∀ k, k ∈ keys → occurrences k keys = 1.
Proof.
  induction keys as [|k keys IH].
  { split; [intros _ k Hk; by apply elem_of_nil in Hk|constructor]. }
  rewrite NoDup_cons, IH. split.
  - intros [Hk Hall] k' Hk'. rewrite occurrences_cons.
    destruct (decide (k = k')) as [->|Hne].
    + assert (occurrences k' keys = 0) as ->; [|done].
      destruct (decide (0 < occurrences k' keys)) as [Hp%occurrences_pos|];
        [done|lia].
    + apply elem_of_cons in Hk' as [?|Hk']; [congruence|].
      by rewrite Hall.
  - intros Hall. split.
    + intros Hk. pose proof (Hall k (list_elem_of_here _ _)) as H1.
      rewrite occurrences_cons in H1. apply occurrences_pos in Hk.
      destruct (decide (k = k)); [lia|done].
    + intros k' Hk'. pose proof (Hall k' (list_elem_of_further _ _ _ Hk')) as H1.
      rewrite occurrences_cons in H1. apply occurrences_pos in Hk'.
      destruct (decide (k = k')); lia.
Qed.

Lemma length_filter_zero (P : K → Prop) `{!∀ x, Decision (P x)} keys :
  length (filter P keys) = 0 ↔ ∀ k, k ∈ keys → ¬ P k.
Proof.
  induction keys as [|k keys IH].
  { split; [intros _ k Hk; by apply elem_of_nil in Hk|done]. }
  rewrite filter_cons. destruct (decide (P k)) as [HP|HP]; simpl.
  - split; [done|]. intros Hall. exfalso. apply (Hall k); [by left|done].
  - rewrite IH. split.
    + intros Hall k' [->|Hk']%elem_of_cons; [done|by apply Hall].
    + intros Hall k' Hk'. apply Hall. by right.
Qed.

(** No key is listed more than once exactly when the keys are distinct. *)
Lemma no_duplicates_NoDup keys :
  length (filter (λ k, 1 < occurrences k keys) keys) = 0 ↔ NoDup keys.
Proof.
  rewrite length_filter_zero, NoDup_occurrences.
  split; intros Hall k Hk; specialize (Hall k Hk);
    apply occurrences_pos in Hk; lia.
Qed.

End Distinct.

Section Verdicts.
Context `{!Python} {cell : Type} `{EqDecision cell} `{!Dtypes cell} `{!Pandas cell}.
Implicit Types (source_df target_df df : DataFrame cell) (o : SetOrder).

(** What a comparison that returns has found out about the columns. *)
Lemma reconcile_Ok_columns o source_df target_df (c : Comparison cell) :
  rectangular target_df →
  reconcile o source_df target_df = Ok c →
  let S := set_columns source_df (normalize_columns (columns source_df)) in
  let T := set_columns target_df (normalize_columns (columns target_df)) in
  let common := common_columns (diff_schema o (columns S) (columns T)) in
  common ≠ []
  ∧ carried_once common (columns S)
  ∧ carried_once common (columns T)
  ∧ schema_diff c = diff_schema o (columns S) (columns T)
  ∧ source_row_count c = length (rows source_df)
  ∧ target_row_count c = length (rows target_df)
  ∧ source_column_count c = length (columns source_df)
  ∧ target_column_count c = length (columns target_df)
  ∧ duplicates c = length (duplicate_rows_spec T common).
Proof.
  intros Hrt Hc S T common.
  apply reconcile_Ok in Hc as (Hd & Hsr & Htr & Hsc & Htc & Hmiss & Hdup).
  fold S T common in Hmiss, Hdup.
  destruct (common_columns_facts o (columns S) (columns T)) as (Hnd & Hss & Hst & _).
  fold common in Hnd, Hss, Hst.
  assert (common ≠ []) as Hne.
  { intros Hnil. rewrite Hnil in Hmiss.
    by rewrite rows_missing_in_target_no_common in Hmiss. }
  assert (carried_once common (columns S) ∧ carried_once common (columns T))
    as [Hos Hot].
  { destruct (decide (carried_once common (columns S)
                      ∧ carried_once common (columns T))) as [|Hnot]; [done|].
    unfold rows_missing_in_target in Hmiss.
    rewrite !getitem_subset in Hmiss by done.
    by rewrite (merge_columns_not_unique _ _ (columns S) (columns T) common)
      in Hmiss. }
  split_and!; try done.
  assert (rectangular T) as HrT
    by (apply rectangular_set_columns; [apply length_map|done]).
  rewrite duplicate_count_rows in Hdup by done. by injection Hdup.
Qed.

(** What a comparison of values that can be compared as they are returns. *)
Lemma reconcile_Ok_comparable o source_df target_df (c : Comparison cell) :
  rectangular source_df →
  rectangular target_df →
  let S := set_columns source_df (normalize_columns (columns source_df)) in
  let T := set_columns target_df (normalize_columns (columns target_df)) in
  let common := common_columns (diff_schema o (columns S) (columns T)) in
  comparable S T →
  reconcile o source_df target_df = Ok c →
  (∀ x, x ∈ indicator_names → x ∉ common)
  ∧ missing_rows c
    = {| columns := common;
         dtypes := key_dtypes common S;
         rows := find_missing_rows_spec S T common |}.
Proof.
  intros Hrs Hrt S T common Hco Hc.
  rewrite reconcile_three_cases in Hc by done. fold S T common in Hc.
  case_bool_decide as Hne; [done|].
  case_bool_decide as Honce; [|done].
  destruct (indicator_pre_merge common) as [e|] eqn:Hres; [done|].
  injection Hc as <-. split; [|done].
  by apply indicator_pre_merge_None.
Qed.

(** In a comparison that returns without a schema mismatch, the two
    datasets have the same normalized column names, each once, and all of
    them are common. *)
Lemma column_count_mismatch_never_alone_aux o source_df target_df
    (c : Comparison cell) :
  rectangular source_df →
  rectangular target_df →
  reconcile o source_df target_df = Ok c →
  let ns := normalize_columns (columns source_df) in
  let nt := normalize_columns (columns target_df) in
  carried_once (common_columns (schema_diff c)) ns
  ∧ carried_once (common_columns (schema_diff c)) nt
  ∧ (schema_mismatch (schema_diff c) = [] →
     NoDup ns ∧ NoDup nt ∧ (∀ x, x ∈ ns ↔ x ∈ nt)
     ∧ (∀ x, x ∈ ns ↔ x ∈ common_columns (schema_diff c))).
Proof.
  intros Hrs Hrt Hc ns nt.
  destruct (reconcile_Ok_columns _ _ _ _ Hrt Hc) as (_ & Hos & Hot & -> & _).
  simpl in *. fold ns nt in Hos, Hot |- *. split_and!; [done..|].
  intros Hnil. unfold schema_mismatch in Hnil. simpl in Hnil.
  apply app_eq_nil in Hnil as [E1 E2].
  apply enum_nil in E1. apply enum_nil in E2.
  assert (∀ x, x ∈ ns ↔ x ∈ nt) as Hsame.
  { intros x. rewrite <- !(elem_of_list_to_set (C := gset string)).
    split; intros Hx.
    - destruct (decide (x ∈ (list_to_set nt : gset string))) as [|Hn]; [done|].
      assert (x ∈ (list_to_set ns : gset string) ∖ list_to_set nt) as Hin
        by (by apply elem_of_difference).
      rewrite E1 in Hin. by apply not_elem_of_empty in Hin.
    - destruct (decide (x ∈ (list_to_set ns : gset string))) as [|Hn]; [done|].
      assert (x ∈ (list_to_set nt : gset string) ∖ list_to_set ns) as Hin
        by (by apply elem_of_difference).
      rewrite E2 in Hin. by apply not_elem_of_empty in Hin. }
  assert (∀ x, x ∈ ns ↔ x ∈ enum o (list_to_set ns ∩ list_to_set nt)) as Hcs.
  { intros x. rewrite elem_of_enum, elem_of_intersection, !elem_of_list_to_set.
    rewrite <- Hsame. tauto. }
  unfold carried_once in Hos, Hot. rewrite Forall_forall in Hos, Hot.
  split_and!; [| |done|done].
  - apply NoDup_occurrences. intros x Hx. by apply Hos, Hcs.
  - apply NoDup_occurrences. intros x Hx. by apply Hot, Hcs, Hsame.
Qed.

(** X2. In every comparison that returns, every common column name is the
    name of exactly one column of each dataset, and differing column counts
    come with a name that is missing on one side: the Column Count Mismatch
    check is never the only check that fails, whatever the headers are. *)
Theorem column_count_mismatch_never_alone o source_df target_df
    (c : Comparison cell) :
  rectangular source_df →
  rectangular target_df →
  reconcile o source_df target_df = Ok c →
  carried_once (common_columns (schema_diff c))
    (normalize_columns (columns source_df))
  ∧ carried_once (common_columns (schema_diff c))
      (normalize_columns (columns target_df))
  ∧ (column_count_mismatch c = true → schema_mismatch (schema_diff c) ≠ []).
Proof.
  intros Hrs Hrt Hc.
  destruct (column_count_mismatch_never_alone_aux _ _ _ _ Hrs Hrt Hc)
    as (Hos & Hot & Hcols).
  split_and!; [done..|].
  intros Hcc Hnil. destruct (Hcols Hnil) as (Hns & Hnt & Hsame & _).
  destruct (reconcile_Ok_columns _ _ _ _ Hrt Hc)
    as (_ & _ & _ & _ & _ & _ & Hsc & Htc & _).
  unfold column_count_mismatch in Hcc. rewrite Hsc, Htc in Hcc.
  apply bool_decide_eq_true in Hcc. apply Hcc.
  pose proof (Permutation_length (NoDup_Permutation _ _ Hns Hnt Hsame)) as Hl.
  unfold normalize_columns in Hl. by rewrite !length_map in Hl.
Qed.

(** The duplicate count against the value tuples of the target. *)
Lemma duplicates_distinct_tuples o source_df target_df
    (c : Comparison cell) :
  rectangular source_df →
  rectangular target_df →
  reconcile o source_df target_df = Ok c →
  let T := set_columns target_df (normalize_columns (columns target_df)) in
  duplicates c ≤ target_row_count c
  ∧ (has_duplicates c = false
     ↔ NoDup (map (value_tuple (common_columns (schema_diff c)) T)
                (rows target_df))).
Proof.
  intros Hrs Hrt Hc T.
  destruct (reconcile_Ok_columns _ _ _ _ Hrt Hc)
    as (_ & _ & _ & Hd & _ & Htr & _ & _ & Hdup).
  fold T in Hdup. unfold has_duplicates. rewrite Hdup, Htr, Hd.
  cbn [diff_schema common_columns].
  set (common := enum o _). unfold duplicate_rows_spec. split.
  - apply length_filter.
  - rewrite bool_decide_eq_false, <- no_duplicates_NoDup, length_filter_fmap.
    simpl. lia.
Qed.

(** X3. In every comparison that returns, the duplicate count is at most
    the number of target rows, and [has_duplicates] is false exactly when
    the value tuples of the target rows over the common columns are
    pairwise distinct. *)
Theorem no_duplicates_iff_distinct_tuples o source_df target_df
    (c : Comparison cell) :
  rectangular source_df →
  rectangular target_df →
  reconcile o source_df target_df = Ok c →
  let T := set_columns target_df (normalize_columns (columns target_df)) in
  duplicates c ≤ target_row_count c
  ∧ (has_duplicates c = false
     ↔ NoDup (map (value_tuple (common_columns (schema_diff c)) T)
                (rows target_df))).
Proof. apply duplicates_distinct_tuples. Qed.

(** X4. The no-discrepancy verdict on values that can be compared as they
    are (every common column of one dtype in both datasets): when no check
    fails, the two datasets have the same normalized column names, each
    once, the same number of rows, every source row occurs in the target
    and the target rows are pairwise distinct; if the source rows are
    pairwise distinct too, the two datasets hold the same rows up to their
    order. *)
Theorem no_discrepancy_same_rows o source_df target_df (c : Comparison cell) :
  rectangular source_df →
  rectangular target_df →
  let S := set_columns source_df (normalize_columns (columns source_df)) in
  let T := set_columns target_df (normalize_columns (columns target_df)) in
  comparable S T →
  reconcile o source_df target_df = Ok c →
  discrepancy_found c = false →
  let common := common_columns (schema_diff c) in
  columns S ≡ₚ columns T
  ∧ common ≡ₚ columns S
  ∧ length (rows source_df) = length (rows target_df)
  ∧ (∀ r, r ∈ rows source_df →
          value_tuple common S r ∈ map (value_tuple common T) (rows target_df))
  ∧ NoDup (map (value_tuple common T) (rows target_df))
  ∧ (NoDup (map (value_tuple common S) (rows source_df)) →
     map (value_tuple common S) (rows source_df)
     ≡ₚ map (value_tuple common T) (rows target_df)).
Proof.
  intros Hrs Hrt S T Hco Hc Hfound common.
  pose proof (duplicates_distinct_tuples _ _ _ _ Hrs Hrt Hc) as [_ Hdup].
  destruct (column_count_mismatch_never_alone_aux _ _ _ _ Hrs Hrt Hc)
    as (Hos & Hot & Hcols).
  destruct (reconcile_Ok_columns _ _ _ _ Hrt Hc)
    as (_ & _ & _ & Hd & Hsr & Htr & _ & _ & _).
  destruct (reconcile_Ok_comparable _ _ _ _ Hrs Hrt Hco Hc) as (_ & Hmr).
  fold S T in Hd, Hmr. rewrite <- Hd in Hmr. fold common in Hmr.
  unfold discrepancy_found in Hfound.
  rewrite !orb_false_iff in Hfound.
  destruct Hfound as ((((Hschema & Hrow) & Hcol) & Hmiss) & Hdups).
  apply Hdup in Hdups. clear Hdup.
  assert (schema_mismatch (schema_diff c) = []) as Hnil
    by (by destruct (schema_mismatch (schema_diff c))).
  destruct (Hcols Hnil) as (Hns & Hnt & Hsame & Hcommon).
  assert (Hlen : length (rows source_df) = length (rows target_df)).
  { unfold row_count_mismatch in Hrow. apply bool_decide_eq_false in Hrow.
    rewrite Hsr, Htr in Hrow.
    destruct (decide (length (rows source_df) = length (rows target_df))); tauto. }
  assert (Hin : ∀ r, r ∈ rows source_df →
    value_tuple common S r ∈ map (value_tuple common T) (rows target_df)).
  { apply bool_decide_eq_false in Hmiss. unfold missing_count in Hmiss.
    assert (length (rows (missing_rows c)) = 0) as Hzero by lia.
    rewrite Hmr in Hzero. cbn [rows] in Hzero.
    unfold find_missing_rows_spec in Hzero.
    rewrite length_filter_zero in Hzero. intros r Hr.
    destruct (decide (value_tuple common S r
                      ∈ map (value_tuple common T) (rows target_df)))
      as [|Hn]; [done|].
    exfalso. apply (Hzero (value_tuple common S r)); [|exact Hn].
    apply list_elem_of_fmap. by exists r. }
  split_and!; try done.
  - by apply NoDup_Permutation.
  - apply NoDup_Permutation; [|done|].
    + unfold common. rewrite Hd. apply NoDup_enum.
    + intros x. symmetry. apply Hcommon.
  - intros Hnd. apply submseteq_length_Permutation.
    + apply NoDup_submseteq; [done|].
      intros t (r & -> & Hr)%list_elem_of_fmap. by apply Hin.
    + rewrite !length_map. lia.
Qed.

(** Over all the columns of a frame with distinct labels, rows with the
    same value tuple are the same row. *)
Lemma value_tuple_inj df (labels : list string) (r r' : list cell) :
  (∀ x, x ∈ columns df → x ∈ labels) →
  length r = length (columns df) →
  length r' = length (columns df) →
  value_tuple labels df r = value_tuple labels df r' → r = r'.
Proof.
  intros Hall Hr Hr' Heq. unfold value_tuple in Heq.
  assert (length r = length r') as Hlen by congruence.
  pose proof (proj1 (project_agree labels (columns df) r r' Hlen) Heq) as Hall'.
  clear Heq. rename Hall' into Heq.
  apply list_eq. intros i.
  destruct (columns df !! i) as [x|] eqn:Hi.
  - apply (Heq i x Hi), Hall. by eapply list_elem_of_lookup_2.
  - apply lookup_ge_None in Hi.
    rewrite !(proj2 (lookup_ge_None _ _)) by lia. done.
Qed.

(** X5. A dataset compared with a copy of itself (non-empty header, no two
    columns with the same normalized name, no reserved name): the
    comparison returns, no name, row count, column count or row is reported,
    and a discrepancy is found exactly when the dataset has two equal
    rows. *)
Theorem self_comparison o df :
  rectangular df →
  columns df ≠ [] →
  NoDup (normalize_columns (columns df)) →
  (∀ x, x ∈ indicator_names → x ∉ normalize_columns (columns df)) →
  ∃ c, reconcile o df df = Ok c
       ∧ schema_mismatch (schema_diff c) = []
       ∧ row_count_mismatch c = false
       ∧ column_count_mismatch c = false
       ∧ rows (missing_rows c) = []
       ∧ (discrepancy_found c = false ↔ NoDup (rows df)).
Proof.
  intros Hrect Hne Hnd Hres.
  set (ns := normalize_columns (columns df)) in *.
  set (S := set_columns df ns).
  assert (Hcommon : ∀ x, x ∈ enum o (list_to_set ns ∩ list_to_set ns) ↔ x ∈ ns).
  { intros x. rewrite elem_of_enum, elem_of_intersection, elem_of_list_to_set.
    tauto. }
  assert (comparable S S) as Hco.
  { right. right. apply Forall_forall. by intros x _ _. }
  rewrite reconcile_three_cases by done. fold ns S. cbn [columns S set_columns].
  simpl. set (common := enum o (list_to_set ns ∩ list_to_set ns)) in *.
  rewrite bool_decide_eq_false_2.
  2:{ intros Hnil. destruct (columns df) as [|h cols] eqn:Hcols; [done|].
      assert (normalize h ∈ common) as Hin by (apply Hcommon; unfold ns; by left).
      rewrite Hnil in Hin. by apply elem_of_nil in Hin. }
  assert (carried_once common ns) as Honce.
  { apply Forall_forall. intros x Hx%Hcommon. by apply NoDup_occurrences. }
  rewrite bool_decide_eq_true_2 by done.
  assert (indicator_pre_merge common = None) as ->.
  { apply indicator_pre_merge_None. intros x Hx Hin%Hcommon. by apply (Hres x). }
  assert (find_missing_rows_spec S S common = []) as Hmiss.
  { unfold find_missing_rows_spec. apply nil_length_inv, length_filter_zero.
    intros t Ht Hn. by apply Hn. }
  assert (length (duplicate_rows_spec S common) = 0 ↔ NoDup (rows df)) as Hdup.
  { assert (length (duplicate_rows_spec S common)
            = length (filter (λ k, 1 < occurrences k
                          (map (value_tuple common S) (rows df)))
                        (map (value_tuple common S) (rows df)))) as ->
      by (unfold duplicate_rows_spec; by rewrite length_filter_fmap).
    rewrite no_duplicates_NoDup.
    unfold rectangular in Hrect. rewrite Forall_forall in Hrect.
    split; [apply NoDup_fmap_1|].
    apply NoDup_fmap_2_strong. intros r r' Hr Hr' Heq.
    apply (value_tuple_inj S common r r'); [|simpl..|done].
    - intros x Hx. by apply Hcommon.
    - unfold ns, normalize_columns. rewrite length_map. by apply Hrect.
    - unfold ns, normalize_columns. rewrite length_map. by apply Hrect. }
  eexists. split; [reflexivity|].
  unfold discrepancy_found, schema_mismatch, row_count_mismatch,
    column_count_mismatch, has_duplicates, missing_count.
  cbn [schema_diff source_row_count target_row_count source_column_count
       target_column_count missing_rows duplicates rows diff_schema
       missing_in_target missing_in_source].
  rewrite difference_diag_L, Hmiss.
  assert (enum o ∅ = []) as -> by by apply enum_nil.
  rewrite !(bool_decide_eq_false_2 (_ ≠ _)) by (intros Hneq; by apply Hneq).
  simpl. split_and!; try done.
  rewrite bool_decide_eq_false, <- Hdup. lia.
Qed.

End Verdicts.

(** ** Files and log records of a run *)

Ltac unfold_script :=
  unfold try_block, load_and_compare, load, compare, emit, handler,
    mbind, M_bind, mret, M_ret, raise, lift, logger, df_to_csv in *.

Ltac solve_sublist :=
  repeat first [apply sublist_nil_l | apply sublist_skip | apply sublist_cons].

Section Runs.
Context `{!Python} {cell : Type} `{EqDecision cell} `{!Dtypes cell} `{!Pandas cell}.
Implicit Types (w : World cell) (st : State cell) (o : SetOrder).

(** After loading and comparison nothing is written, or the target alone,
    from the source frame as it was loaded. *)
Lemma load_and_compare_files w o st (res : result (Comparison cell)) :
  load_and_compare w o initial = (st, res) →
  files st = []
  ∨ (isfile w target_path = false
     ∧ ∃ source_df, read_csv w source_path = Ok source_df
                    ∧ files st = [(target_path, Table source_df)]).
Proof.
  unfold_script. unfold initial. intros Hrun.
  repeat (case_match; simplify_eq/=); auto;
    right; (split; [by apply negb_true_iff|by eexists]).
Qed.

Lemma missing_rows_discrepancy (c : Comparison cell) :
  0 < missing_count c → discrepancy_found c = true.
Proof.
  intros Hm. unfold discrepancy_found.
  rewrite (bool_decide_eq_true_2 (0 < missing_count c)) by done.
  by rewrite !orb_true_r.
Qed.

(** What [emit] writes, whether it completes or not. *)
Lemma emit_files w (c : Comparison cell) st st' (res : result unit) :
  emit w c st = (st', res) →
  ∃ l, files st' = files st ++ l
       ∧ errors st' = errors st
       ∧ (if discrepancy_found c
          then l.*1 `sublist_of` [mismatch_records; discrepancy_report]
          else l.*1 `sublist_of` [no_discrepancy_report]).
Proof.
  intros Hrun.
  destruct (decide (0 < missing_count c)) as [Hm|Hm].
  - pose proof (missing_rows_discrepancy c Hm) as Hfound.
    unfold_script. unfold errors. rewrite Hfound in *.
    rewrite bool_decide_eq_true_2 in Hrun by done.
    repeat (case_match; simplify_eq/=);
      eexists; (split; [try rewrite <- app_assoc; try reflexivity;
                        symmetry; apply app_nil_r|]);
      (split; [by rewrite ?filter_app, ?app_nil_r|]); simpl; solve_sublist.
  - unfold_script. unfold errors.
    rewrite bool_decide_eq_false_2 in Hrun by done.
    repeat (case_match; simplify_eq/=);
      eexists; (split; [try reflexivity; symmetry; apply app_nil_r|]);
      (split; [by rewrite ?filter_app, ?app_nil_r|]); simpl; solve_sublist.
Qed.

Lemma handler_state (e : exn) st :
  files (handler e st).1 = files st
  ∧ log (handler e st).1
    = log st
      ++ [{| lvl := ERROR;
             msg := TextExn (if bool_decide (exn_cls e = FileNotFoundError)
                             then "File Not Found: "
                             else "Unexpected error: ") e |}].
Proof. unfold handler, logger. by case_bool_decide. Qed.

(** The state in which the [try] block ends. *)
Lemma try_block_state w o st (res : result unit) :
  try_block w o initial = (st, res) →
  errors st = []
  ∧ ∃ st0 l,
      files st = files st0 ++ l
      ∧ (files st0 = []
         ∨ (isfile w target_path = false
            ∧ ∃ source_df, read_csv w source_path = Ok source_df
                           ∧ files st0 = [(target_path, Table source_df)]))
      ∧ (l.*1 `sublist_of` [mismatch_records; discrepancy_report]
         ∨ l.*1 `sublist_of` [no_discrepancy_report]).
Proof.
  rewrite try_block_unfold. intros Hrun.
  destruct (load_and_compare w o initial) as [st0 [c|e]] eqn:Hlc.
  - destruct (load_and_compare_quiet _ _ _ _ Hlc) as [_ Herr].
    pose proof (load_and_compare_files _ _ _ _ Hlc) as Hfiles.
    destruct (emit_files _ _ _ _ _ Hrun) as (l & Hl & Herr' & Hsub).
    split; [congruence|]. exists st0, l. split_and!; [done..|].
    destruct (discrepancy_found c); auto.
  - simplify_eq. destruct (load_and_compare_quiet _ _ _ _ Hlc) as [_ Herr].
    pose proof (load_and_compare_files _ _ _ _ Hlc) as Hfiles.
    split; [done|]. exists st, []. rewrite app_nil_r. split_and!; [done..|].
    left. simpl. solve_sublist.
Qed.

Lemma main_cases w o :
  ∃ st (res : result unit),
    try_block w o initial = (st, res)
    ∧ files (main w o) = files st
    ∧ match res with
      | Ok _ => main w o = st
      | Raised e => main w o = (handler e st).1
      end.
Proof.
  unfold main. destruct (try_block w o initial) as [st [[]|e]] eqn:Hrun.
  - by exists st, (Ok ()).
  - exists st, (Raised e). split_and!; [done| |done]. apply handler_state.
Qed.

(** X6. Whatever the outside world answers, a run writes files in one of
    two shapes: the target, the mismatch records, the discrepancy report,
    in this order, each at most once; or the target and the no-discrepancy
    report. The source file is never written, the mismatch records never
    come with the no-discrepancy report, and the target is only written
    when it was not a file. *)
Theorem written_files_in_order w o :
  let paths := (files (main w o)).*1 in
  (paths `sublist_of` [target_path; mismatch_records; discrepancy_report]
   ∨ paths `sublist_of` [target_path; no_discrepancy_report])
  ∧ NoDup paths
  ∧ (source_path ∉ paths)
  ∧ ¬ (mismatch_records ∈ paths ∧ no_discrepancy_report ∈ paths)
  ∧ (target_path ∈ paths → isfile w target_path = false).
Proof.
  intros paths.
  destruct (main_cases w o) as (st & res & Hrun & Hfiles & _).
  destruct (try_block_state _ _ _ _ Hrun) as (_ & st0 & l & Hst & Hst0 & Hl).
  assert (paths = (files st0).*1 ++ l.*1) as Hpaths
    by (unfold paths; by rewrite Hfiles, Hst, fmap_app).
  assert (Hshape :
    paths `sublist_of` [target_path; mismatch_records; discrepancy_report]
    ∨ paths `sublist_of` [target_path; no_discrepancy_report]).
  { rewrite Hpaths.
    destruct Hst0 as [->|(_ & source_df & _ & ->)], Hl as [Hl|Hl]; simpl.
    - left. by apply sublist_cons.
    - right. by apply sublist_cons.
    - left. by apply sublist_skip.
    - right. by apply sublist_skip. }
  split; [exact Hshape|]. split_and!.
  - destruct Hshape as [Hs|Hs]; eapply sublist_NoDup; try exact Hs; by_computation.
  - intros Hin. destruct Hshape as [Hs|Hs]; apply (sublist_subseteq _ _ Hs) in Hin;
      revert Hin; by_computation.
  - intros [Hm Hn]. destruct Hshape as [Hs|Hs].
    + apply (sublist_subseteq _ _ Hs) in Hn. revert Hn. by_computation.
    + apply (sublist_subseteq _ _ Hs) in Hm. revert Hm. by_computation.
  - rewrite Hpaths. destruct Hst0 as [->|(Hfile & _)]; [|done].
    simpl. intros Hin.
    destruct Hl as [Hs|Hs]; apply (sublist_subseteq _ _ Hs) in Hin;
      revert Hin; by_computation.
Qed.

(** X7. A run logs at level [ERROR] only in its handler: no [ERROR] record
    exactly when the run completes; otherwise exactly one, the last record
    of the log, [File Not Found] for a [FileNotFoundError] and
    [Unexpected error] for every other exception, whether it was raised
    while loading, comparing or writing. *)
Theorem one_error_record_iff_raised w o :
  (succeeds w o ↔ errors (main w o) = [])
  ∧ length (errors (main w o)) ≤ 1
  ∧ (∀ st e, try_block w o initial = (st, Raised e) →
       let record :=
         {| lvl := ERROR;
            msg := TextExn (if bool_decide (exn_cls e = FileNotFoundError)
                            then "File Not Found: "
                            else "Unexpected error: ") e |} in
       errors (main w o) = [record]
       ∧ last (log (main w o)) = Some record
       ∧ files (main w o) = files st).
Proof.
  destruct (main_cases w o) as (st & res & Hrun & Hfiles & Hmain).
  destruct (try_block_state _ _ _ _ Hrun) as (Herr & _).
  destruct res as [[]|e].
  - rewrite Hmain, Herr. split_and!.
    + split; [done|]. intros _. by exists st.
    + simpl. lia.
    + intros st' e' Hrun'. congruence.
  - destruct (handler_state e st) as [Hf Hlog].
    assert (errors (main w o)
            = [{| lvl := ERROR;
                  msg := TextExn (if bool_decide (exn_cls e = FileNotFoundError)
                                  then "File Not Found: "
                                  else "Unexpected error: ") e |}]) as Herrors.
    { rewrite Hmain. unfold errors in *. by rewrite Hlog, filter_app, Herr. }
    split_and!.
    + split; [|by rewrite Herrors]. intros [st' Hrun']. congruence.
    + by rewrite Herrors.
    + intros st' e' Hrun'. rewrite Hrun in Hrun'. injection Hrun' as <- <-.
      cbv zeta. split_and!; [exact Herrors| |exact Hfiles].
      rewrite Hmain, Hlog. apply last_snoc.
Qed.

Lemma one_error_record_aux w o st (e : exn) :
  try_block w o initial = (st, Raised e) →
  errors (main w o)
  = [{| lvl := ERROR;
        msg := TextExn (if bool_decide (exn_cls e = FileNotFoundError)
                        then "File Not Found: "
                        else "Unexpected error: ") e |}]
  ∧ files (main w o) = files st.
Proof.
  intros Hrun. destruct (try_block_state _ _ _ _ Hrun) as (Herr & _).
  destruct (handler_state e st) as [Hf Hlog].
  unfold main. rewrite Hrun. split; [|done].
  unfold errors in *. by rewrite Hlog, filter_app, Herr.
Qed.

(** X8. When the source file is missing nothing is read or written, the
    target is not created, and the log is the one [File Not Found]
    record. *)
Theorem missing_source_writes_nothing w o :
  isfile w source_path = false →
  main w o
  = {| files := [];
       log := [{| lvl := ERROR;
                  msg := TextExn "File Not Found: "
                           (Raise FileNotFoundError
                              ("Source file not found at " +:+ config source_path)) |}] |}.
Proof.
  intros Hfile. unfold main. unfold_script. by rewrite Hfile.
Qed.

(** X9. A target that is not a file is created from the source frame as it
    was loaded (its column names not yet normalized), before anything else
    is written; if that write raises, the run ends with nothing written and
    the exception in the one [ERROR] record. *)
Theorem target_created_from_loaded_source w o (source_df : DataFrame cell) :
  isfile w source_path = true →
  read_csv w source_path = Ok source_df →
  isfile w target_path = false →
  match to_csv w target_path (Table source_df) with
  | None => head (files (main w o)) = Some (target_path, Table source_df)
  | Some e =>
      files (main w o) = []
      ∧ errors (main w o)
        = [{| lvl := ERROR;
              msg := TextExn (if bool_decide (exn_cls e = FileNotFoundError)
                              then "File Not Found: "
                              else "Unexpected error: ") e |}]
  end.
Proof.
  intros Hsrc Hread Htgt.
  destruct (to_csv w target_path (Table source_df)) as [e|] eqn:Hwrite.
  - assert (try_block w o initial
            = ({| files := [];
                  log := [{| lvl := INFO;
                             msg := Text "✅ Source file loaded successfully." |}] |},
               Raised e)) as Hrun.
    { unfold_script. by rewrite Hsrc, Hread, Htgt, Hwrite. }
    destruct (one_error_record_aux w o _ _ Hrun) as (Herr & Hfiles).
    by rewrite Hfiles.
  - destruct (main_cases w o) as (st & res & Hrun & Hfiles & _).
    rewrite Hfiles. clear Hfiles. revert Hrun. rewrite try_block_unfold.
    destruct (load_and_compare w o initial) as [st0 r0] eqn:Hlc.
    assert (∃ rest, files st0 = (target_path, Table source_df) :: rest)
      as [rest Hst0].
    { revert Hlc. unfold_script. rewrite Hsrc, Hread, Htgt, Hwrite. simpl.
      intros Hlc. repeat (case_match; simplify_eq/=); by eexists. }
    destruct r0 as [c|e]; intros Hrun.
    + destruct (emit_files _ _ _ _ _ Hrun) as (l & -> & _). by rewrite Hst0.
    + simplify_eq. by rewrite Hst0.
Qed.

(** X10. In a run that completes, the mismatch records are written
    exactly when a source row is missing in the target; the file holds the
    missing rows over the common columns, and it always comes with the
    discrepancy report. *)
Theorem mismatch_records_iff_missing_rows w o st :
  try_block w o initial = (st, Ok ()) →
  ∃ source_df target_df c,
    read_csv w source_path = Ok source_df
    ∧ read_csv w target_path = Ok target_df
    ∧ reconcile o source_df target_df = Ok c
    ∧ (written mismatch_records st ↔ rows (missing_rows c) ≠ [])
    ∧ (∀ x, (mismatch_records, x) ∈ files st → x = Table (missing_rows c))
    ∧ (written mismatch_records st → written discrepancy_report st).
Proof.
  intros Hrun. pose proof Hrun as Hemit. rewrite try_block_unfold in Hemit.
  destruct (load_and_compare w o initial) as [st0 [c|e]] eqn:Hlc; [|done].
  pose proof (load_and_compare_quiet _ _ _ _ Hlc) as Hq.
  destruct (load_and_compare_Ok _ _ _ _ Hlc)
    as (source_df & target_df & _ & Hs & Ht & Hc).
  apply emit_Ok in Hemit as [Hfiles _].
  assert (Hin : ∀ p x, p ≠ target_path →
    (p, x) ∈ files st ↔
    (p, x) ∈ (if bool_decide (0 < missing_count c)
              then [(mismatch_records, Table (missing_rows c))] else [])
             ++ [if discrepancy_found c
                 then (discrepancy_report, discrepancy_df c)
                 else (no_discrepancy_report, no_discrepancy_df)]).
  { intros p x Hp. rewrite Hfiles, elem_of_app. split; [|by right].
    intros [Hin|Hin]; [|done]. by apply quiet_not_written in Hin. }
  assert (Hlen : 0 < missing_count c ↔ rows (missing_rows c) ≠ []).
  { unfold missing_count. destruct (rows (missing_rows c)); simpl; split;
      (done || lia). }
  exists source_df, target_df, c. split_and!; try done.
  - rewrite <- Hlen, written_iff. setoid_rewrite Hin; [|done].
    case_bool_decide as Hm; simpl.
    + split; [done|]. intros _. eexists. by left.
    + split; [|done]. intros [x Hx]. apply elem_of_cons in Hx as [Hx|Hx].
      * by destruct (discrepancy_found c).
      * by apply elem_of_nil in Hx.
  - intros x Hx. apply Hin in Hx; [|done].
    case_bool_decide; simpl in Hx;
      repeat (apply elem_of_cons in Hx as [Hx|Hx];
              [by destruct (discrepancy_found c); simplify_eq|]);
      by apply elem_of_nil in Hx.
  - rewrite !written_iff. intros [x Hx]. apply Hin in Hx; [|done].
    case_bool_decide as Hm.
    + pose proof (missing_rows_discrepancy c Hm) as Hfound.
      exists (discrepancy_df c). apply Hin; [done|]. rewrite Hfound.
      apply elem_of_app. right. by left.
    + simpl in Hx. apply elem_of_cons in Hx as [Hx|Hx].
      * by destruct (discrepancy_found c).
      * by apply elem_of_nil in Hx.
Qed.

End Runs.

(** ** The marker of a check that passes *)

Section Marker.
Context `{!Python} {cell : Type} `{EqDecision cell} `{!Dtypes cell} `{!Pandas cell}.

(** X11. In the discrepancy report of a comparison that returned, the text
    of a check is [No Issue] exactly when that check passes; no column
    name, count or list of names can produce this text. *)
Theorem no_issue_iff_check_passes (o : SetOrder)
    (source_df target_df : DataFrame cell) (c : Comparison cell) :
  reconcile o source_df target_df = Ok c →
  ∃ f1 f2 f3 f4 f5,
    discrepancy_data c
    = [["Schema Mismatch"; f1]; ["Row Count Mismatch"; f2];
       ["Column Count Mismatch"; f3]; ["Source Minus Target"; f4];
       ["Duplicate Rows in Target"; f5]]
    ∧ (f1 = "No Issue" ↔ schema_mismatch (schema_diff c) = [])
    ∧ (f2 = "No Issue" ↔ source_row_count c = target_row_count c)
    ∧ (f3 = "No Issue" ↔ source_column_count c = target_column_count c)
    ∧ (f4 = "No Issue" ↔ rows (missing_rows c) = [])
    ∧ (f5 = "No Issue" ↔ duplicates c = 0).
Proof.
  intros Hc.
  destruct (discrepancy_data_fields _ _ _ _ Hc)
    as (f1 & f2 & f3 & f4 & f5 & Hdata & H1 & H2 & H3 & H4 & H5 & _).
  by exists f1, f2, f3, f4, f5.
Qed.

End Marker.

(** ** Headers that differ in case or in spaces *)

Section Headers.
Context `{!Python} {cell : Type} `{EqDecision cell} `{!Dtypes cell} `{!Pandas cell}.
Implicit Types (source_df target_df : DataFrame cell) (o : SetOrder).

(** X12. The comparison reads the headers only through their normalized
    form: two headers that normalize alike are the same column. Replacing
    the headers of either dataset by headers with the same normalized names
    (their lower-case form, their form with underscores for spaces, their
    normalized form) changes nothing in the result. *)
Theorem headers_read_through_normalize o source_df target_df :
  (∀ source_columns target_columns,
     normalize_columns source_columns = normalize_columns (columns source_df) →
     normalize_columns target_columns = normalize_columns (columns target_df) →
     reconcile o (set_columns source_df source_columns)
                 (set_columns target_df target_columns)
     = reconcile o source_df target_df)
  ∧ reconcile o (set_columns source_df (map lower (columns source_df))) target_df
    = reconcile o source_df target_df
  ∧ reconcile o source_df
      (set_columns target_df (map (replace " " "_") (columns target_df)))
    = reconcile o source_df target_df
  ∧ reconcile o (set_columns source_df (normalize_columns (columns source_df)))
                (set_columns target_df (normalize_columns (columns target_df)))
    = reconcile o source_df target_df.
Proof.
  assert (Hgen : ∀ source_columns target_columns,
     normalize_columns source_columns = normalize_columns (columns source_df) →
     normalize_columns target_columns = normalize_columns (columns target_df) →
     reconcile o (set_columns source_df source_columns)
                 (set_columns target_df target_columns)
     = reconcile o source_df target_df).
  { intros sc tc Hs Ht. unfold reconcile, set_columns. simpl.
    by rewrite Hs, Ht. }
  split; [exact Hgen|]. split_and!.
  - rewrite <- (Hgen (map lower (columns source_df)) (columns target_df)); [|..|done].
    + by destruct target_df.
    + unfold normalize_columns. rewrite map_map. apply map_ext, normalize_lower.
  - rewrite <- (Hgen (columns source_df)
                  (map (replace " " "_") (columns target_df))); [|done|].
    + by destruct source_df.
    + unfold normalize_columns. rewrite map_map. apply map_ext, normalize_replace.
  - apply Hgen; unfold normalize_columns; rewrite map_map;
      apply map_ext, normalize_idem.
Qed.

(** X13. Source and target exchanged: when both comparisons return, the
    common names are the same, the names missing in the target become the
    names missing in the source and back, the row counts and the column
    counts are exchanged, and the two count checks give the same
    verdict. *)
Theorem source_and_target_exchanged o1 o2 source_df target_df
    (c c' : Comparison cell) :
  reconcile o1 source_df target_df = Ok c →
  reconcile o2 target_df source_df = Ok c' →
  common_columns (schema_diff c) ≡ₚ common_columns (schema_diff c')
  ∧ missing_in_target (schema_diff c) ≡ₚ missing_in_source (schema_diff c')
  ∧ missing_in_source (schema_diff c) ≡ₚ missing_in_target (schema_diff c')
  ∧ source_row_count c = target_row_count c'
  ∧ target_row_count c = source_row_count c'
  ∧ source_column_count c = target_column_count c'
  ∧ target_column_count c = source_column_count c'
  ∧ row_count_mismatch c = row_count_mismatch c'
  ∧ column_count_mismatch c = column_count_mismatch c'.
Proof.
  intros Hc Hc'.
  apply reconcile_Ok in Hc as (Hd & Hsr & Htr & Hsc & Htc & _).
  apply reconcile_Ok in Hc' as (Hd' & Hsr' & Htr' & Hsc' & Htc' & _).
  unfold row_count_mismatch, column_count_mismatch.
  rewrite Hd, Hd', Hsr, Htr, Hsc, Htc, Hsr', Htr', Hsc', Htc'.
  cbn [diff_schema common_columns missing_in_target missing_in_source
       set_columns columns].
  split_and!; try done.
  - rewrite !enum_perm.
    by rewrite (comm_L (∩) (list_to_set (normalize_columns (columns source_df))
                              : gset string)).
  - by rewrite !enum_perm.
  - by rewrite !enum_perm.
  - apply bool_decide_ext. split; intros Hne Heq; by apply Hne.
  - apply bool_decide_ext. split; intros Hne Heq; by apply Hne.
Qed.

End Headers.

(** ** Instances of the further properties *)

Section Further_instances.
Existing Instance ascii_python.
Existing Instance csv_dtypes.
Existing Instance csv_pandas.

Lemma reconcile_outcome_witness :
  rectangular ex_collide
  ∧ rectangular ex_narrow
  ∧ reconcile order_fwd ex_collide ex_narrow
    = Raised (Raise MergeError
                "Data columns not unique: Index(['id'], dtype='object')")
  ∧ reconcile order_fwd ex_source ex_other = Raised no_common_columns.
Proof.
  assert (rectangular ex_collide) as H1 by by_computation.
  assert (rectangular ex_narrow) as H2 by by_computation.
  assert (rectangular ex_source) as H3 by by_computation.
  assert (rectangular ex_other) as H4 by by_computation.
  split_and!; [exact H1|exact H2| |].
  - destruct (reconcile_outcome order_fwd ex_collide ex_narrow H1 H2)
      as (_ & Hunique & _).
    rewrite Hunique; [vm_compute; reflexivity|vm_compute; discriminate|].
    intros [Hs _]. revert Hs. by_computation.
  - destruct (reconcile_outcome order_fwd ex_source ex_other H3 H4)
      as (Hnone & _).
    apply Hnone. vm_compute. reflexivity.
Defined.

Lemma column_count_mismatch_never_alone_witness :
  rectangular ex_source
  ∧ rectangular ex_target
  ∧ ∃ c, reconcile order_fwd ex_source ex_target = Ok c
         ∧ column_count_mismatch c = true
         ∧ schema_mismatch (schema_diff c) ≠ [].
Proof.
  assert (rectangular ex_source) as H1 by by_computation.
  assert (rectangular ex_target) as H2 by by_computation.
  split_and!; [exact H1|exact H2|].
  destruct (reconcile order_fwd ex_source ex_target) as [c|e] eqn:Hc;
    [|vm_compute in Hc; discriminate].
  assert (column_count_mismatch c = true) as Hcc
    by (vm_compute in Hc; by injection Hc as <-).
  exists c. split_and!; [reflexivity|assumption|].
  apply (column_count_mismatch_never_alone order_fwd ex_source ex_target c H1 H2 Hc).
  assumption.
Defined.

Lemma no_duplicates_iff_distinct_tuples_witness :
  rectangular ex_source
  ∧ rectangular ex_target
  ∧ ∃ c, reconcile order_fwd ex_source ex_target = Ok c
         ∧ duplicates c ≤ target_row_count c.
Proof.
  assert (rectangular ex_source) as H1 by by_computation.
  assert (rectangular ex_target) as H2 by by_computation.
  split_and!; [exact H1|exact H2|].
  destruct (reconcile order_fwd ex_source ex_target) as [c|e] eqn:Hc;
    [|vm_compute in Hc; discriminate].
  exists c. split; [reflexivity|].
  destruct (no_duplicates_iff_distinct_tuples order_fwd ex_source ex_target c
              H1 H2 Hc) as [Hle _]. exact Hle.
Defined.

Lemma no_discrepancy_same_rows_witness :
  rectangular ex_source
  ∧ comparable (set_columns ex_source (normalize_columns (columns ex_source)))
               (set_columns ex_source (normalize_columns (columns ex_source)))
  ∧ ∃ c, reconcile order_fwd ex_source ex_source = Ok c
         ∧ discrepancy_found c = false
         ∧ length (rows ex_source) = length (rows ex_source)
         ∧ normalize_columns (columns ex_source)
           ≡ₚ normalize_columns (columns ex_source).
Proof.
  assert (rectangular ex_source) as H1 by by_computation.
  assert (comparable (set_columns ex_source (normalize_columns (columns ex_source)))
            (set_columns ex_source (normalize_columns (columns ex_source)))) as H2
    by by_computation.
  split_and!; [exact H1|exact H2|].
  destruct (reconcile order_fwd ex_source ex_source) as [c|e] eqn:Hc;
    [|vm_compute in Hc; discriminate].
  assert (discrepancy_found c = false) as Hfound
    by (vm_compute in Hc; by injection Hc as <-).
  exists c.
  destruct (no_discrepancy_same_rows order_fwd ex_source ex_source c
              H1 H1 H2 Hc Hfound) as (Hcols & _ & Hlen & _).
  split_and!; [reflexivity|assumption|exact Hlen|exact Hcols].
Defined.

Lemma self_comparison_witness :
  rectangular ex_source
  ∧ columns ex_source ≠ []
  ∧ NoDup (normalize_columns (columns ex_source))
  ∧ ∃ c, reconcile order_fwd ex_source ex_source = Ok c
         ∧ rows (missing_rows c) = []
         ∧ (discrepancy_found c = false ↔ NoDup (rows ex_source)).
Proof.
  assert (rectangular ex_source) as H1 by by_computation.
  assert (columns ex_source ≠ []) as H2 by discriminate.
  assert (NoDup (normalize_columns (columns ex_source))) as H3 by by_computation.
  split_and!; [exact H1|exact H2|exact H3|].
  destruct (self_comparison order_fwd ex_source H1 H2 H3)
    as (c & Hc & _ & _ & _ & Hmiss & Hiff).
  - apply Forall_forall. by_computation.
  - exists c. split_and!; assumption.
Defined.

Lemma missing_source_writes_nothing_witness :
  isfile (ex_no_source : World value) source_path = false
  ∧ files (main (ex_no_source : World value) order_fwd) = [].
Proof.
  split; [reflexivity|].
  by rewrite (missing_source_writes_nothing (ex_no_source : World value) order_fwd).
Defined.

Lemma target_created_from_loaded_source_witness :
  head (files (main (ex_world_no_target ex_source ex_source) order_fwd))
  = Some (target_path, Table ex_source).
Proof.
  apply (target_created_from_loaded_source
           (ex_world_no_target ex_source ex_source) order_fwd ex_source);
    reflexivity.
Defined.

Lemma mismatch_records_iff_missing_rows_witness :
  try_block (ex_world ex_twice ex_empty) order_fwd initial
  = (main (ex_world ex_twice ex_empty) order_fwd, Ok ())
  ∧ ∃ (source_df target_df : DataFrame value) (c : Comparison value),
      reconcile order_fwd source_df target_df = Ok c
      ∧ (written mismatch_records (main (ex_world ex_twice ex_empty) order_fwd)
         ↔ rows (missing_rows c) ≠ []).
Proof.
  assert (try_block (ex_world ex_twice ex_empty) order_fwd initial
          = (main (ex_world ex_twice ex_empty) order_fwd, Ok ())) as Hrun
    by (vm_compute; reflexivity).
  split; [exact Hrun|].
  destruct (mismatch_records_iff_missing_rows _ _ _ Hrun)
    as (source_df & target_df & c & _ & _ & Hc & Hiff & _).
  exists source_df, target_df, c. split; assumption.
Defined.

Lemma no_issue_iff_check_passes_witness :
  ∃ c, reconcile order_fwd ex_source ex_target = Ok c
       ∧ ∃ f1 f2 f3 f4 f5,
           discrepancy_data c
           = [["Schema Mismatch"; f1]; ["Row Count Mismatch"; f2];
              ["Column Count Mismatch"; f3]; ["Source Minus Target"; f4];
              ["Duplicate Rows in Target"; f5]]
           ∧ (f4 = "No Issue" ↔ rows (missing_rows c) = []).
Proof.
  destruct (reconcile order_fwd ex_source ex_target) as [c|e] eqn:Hc;
    [|vm_compute in Hc; discriminate].
  exists c. split; [reflexivity|].
  destruct (no_issue_iff_check_passes order_fwd ex_source ex_target c Hc)
    as (f1 & f2 & f3 & f4 & f5 & Hdata & _ & _ & _ & H4 & _).
  exists f1, f2, f3, f4, f5. split; assumption.
Defined.

Lemma source_and_target_exchanged_witness :
  ∃ c c', reconcile order_fwd ex_source ex_target = Ok c
          ∧ reconcile order_rev ex_target ex_source = Ok c'
          ∧ missing_in_source (schema_diff c) ≡ₚ missing_in_target (schema_diff c')
          ∧ row_count_mismatch c = row_count_mismatch c'.
Proof.
  destruct (reconcile order_fwd ex_source ex_target) as [c|e] eqn:Hc;
    [|vm_compute in Hc; discriminate].
  destruct (reconcile order_rev ex_target ex_source) as [c'|e'] eqn:Hc';
    [|vm_compute in Hc'; discriminate].
  exists c, c'.
  destruct (source_and_target_exchanged order_fwd order_rev
              ex_source ex_target c c' Hc Hc')
    as (_ & _ & Hm & _ & _ & _ & _ & Hr & _).
  split_and!; [reflexivity|reflexivity|exact Hm|exact Hr].
Defined.

End Further_instances.
